(** * Sentiment dashboard: the classification engine and its aggregations

    A shallow embedding of [web_sentiment_dashboard.py]: the two row-wise
    closures of [load_and_process_data] ([analyze_sentiment] and
    [sentiment_score]), the derived column [review_length], and the
    aggregations the dashboard prints ([value_counts], the percentage
    breakdown, the per-category means with [idxmax]/[idxmin]), together
    with the tables behind its charts (sentiment by star rating, sentiment
    by top categories, review length by sentiment) and the review
    characteristics of the summary.

    Modelling conventions.
    - A float64 cell is [NaN] or [Num q] with [q] an exact rational: the
      comparisons and the NaN propagation of IEEE 754 are modelled, the
      rounding of binary64 arithmetic and the two infinities are not.
    - A string cell is [Some s] or [None] (pandas stores a missing string
      as NaN).  A character is a code point below 256, so that the length
      of a [string] is Python's [len] and [lower] is Python's [str.lower]
      on such text; text with other code points is outside the model.
    - A column read through the [.str] accessor must hold strings: on a
      column of a non-empty frame in which every cell is missing the
      accessor raises AttributeError.
    - A Python exception is identified by the name of its class. *)

From Stdlib Require Import QArith ZArith Lia Lqa List Bool Arith.
From Stdlib Require Import Sorted Permutation.
From Stdlib Require Import Strings.String Strings.Ascii.
From Stdlib Require OrderedTypeEx.
Import ListNotations.

Local Open Scope string_scope.
Local Open Scope Q_scope.

(** ** Cells *)

Inductive float64 : Type :=
| NaN : float64
| Num : Q -> float64.

(** [x >= k] and [x <= k] on a float64 cell: every comparison with NaN is
    false. *)
Definition fge (x : float64) (k : Q) : bool :=
  match x with
  | NaN => false
  | Num q => Qle_bool k q
  end.

Definition fle (x : float64) (k : Q) : bool :=
  match x with
  | NaN => false
  | Num q => Qle_bool q k
  end.

(** Arithmetic propagates NaN.  The only divisor the program uses on a cell
    is the literal [5.0], so no infinity arises. *)
Definition fmap2 (op : Q -> Q -> Q) (x y : float64) : float64 :=
  match x, y with
  | Num a, Num b => Num (op a b)
  | _, _ => NaN
  end.

Definition fsub := fmap2 Qminus.
Definition fmul := fmap2 Qmult.
Definition fdiv := fmap2 Qdiv.

(** A cell holds the value [q]; false of NaN. *)
Definition holds (x : float64) (q : Q) : Prop :=
  match x with
  | NaN => False
  | Num p => p == q
  end.

(** [lo <= x <= hi] on a cell; false of NaN. *)
Definition within (lo hi : Q) (x : float64) : Prop :=
  match x with
  | NaN => False
  | Num p => lo <= p /\ p <= hi
  end.

Definition negative (x : float64) : Prop :=
  match x with
  | NaN => False
  | Num p => p < 0
  end.

Definition positive (x : float64) : Prop :=
  match x with
  | NaN => False
  | Num p => 0 < p
  end.

(** ** Strings: [str.lower] and the [in] operator *)

(** [str.lower] on one character: the letters A-Z and the upper-case
    letters of Latin-1 (U+00C0 to U+00DE, the sign U+00D7 apart) move up by
    32; every other character below 256 is its own lower case. *)
Definition lower_ascii (c : ascii) : ascii :=
  let n := nat_of_ascii c in
  if ((65 <=? n)%nat && (n <=? 90)%nat)
     || ((192 <=? n)%nat && (n <=? 222)%nat && negb (n =? 215)%nat)
  then ascii_of_nat (n + 32) else c.

Fixpoint lower (s : string) : string :=
  match s with
  | EmptyString => EmptyString
  | String c s' => String (lower_ascii c) (lower s')
  end.

(** [starts_with w s]: [s.startswith(w)]. *)
Fixpoint starts_with (w s : string) : bool :=
  match w, s with
  | EmptyString, _ => true
  | String _ _, EmptyString => false
  | String a w', String b s' => Ascii.eqb a b && starts_with w' s'
  end.

(** [contains w s]: the Python test [w in s]. *)
Fixpoint contains (w s : string) : bool :=
  starts_with w s ||
  match s with
  | EmptyString => false
  | String _ s' => contains w s'
  end.

(** [str(cell)]: a missing cell prints as ["nan"]. *)
Definition str (cell : option string) : string :=
  match cell with
  | Some s => s
  | None => "nan"
  end.

(** ** Frames *)

Inductive label : Type := Positive | Negative | Neutral.

Definition label_eqb (a b : label) : bool :=
  match a, b with
  | Positive, Positive | Negative, Negative | Neutral, Neutral => true
  | _, _ => false
  end.

(** The columns of the loaded frame that the program reads, with
    [rating_numeric] already coerced by [pd.to_numeric]. *)
Module Review.
Record t : Type := mk {
  rating_numeric : float64;
  review_content : option string;
  category : option string;
  product_id : option string
}.
End Review.

(** The frame after [load_and_process_data]. *)
Module Annotated.
Record t : Type := mk {
  review : Review.t;
  review_length : float64;
  sentiment : label;
  sentiment_score : float64
}.
End Annotated.

(** ** The classifier *)

Definition positive_words : list string :=
  ["good"; "great"; "excellent"; "amazing"; "love"; "perfect"; "best";
   "awesome"; "satisfied"; "recommend"].

Definition negative_words : list string :=
  ["bad"; "terrible"; "awful"; "hate"; "worst"; "poor"; "disappointed";
   "useless"; "defective"; "broken"].

(** [sum(1 for word in words if word in content)] *)
Fixpoint count_words (words : list string) (content : string) : nat :=
  match words with
  | [] => 0
  | word :: rest =>
      ((if contains word content then 1 else 0) + count_words rest content)%nat
  end.

Definition content_of (row : Review.t) : string :=
  lower (str (Review.review_content row)).

Definition pos_count (row : Review.t) : nat :=
  count_words positive_words (content_of row).

Definition neg_count (row : Review.t) : nat :=
  count_words negative_words (content_of row).

Definition analyze_sentiment (row : Review.t) : label :=
  let rating := Review.rating_numeric row in
  let pos_count := pos_count row in
  let neg_count := neg_count row in
  if fge rating 4 && (neg_count <? pos_count)%nat then Positive
  else if fle rating 2 || (pos_count <? neg_count)%nat then Negative
  else Neutral.

(** [sentiment_score] reads the columns [sentiment] and [rating_numeric] of
    its row. *)
Definition sentiment_score (sentiment : label) (rating_numeric : float64)
  : float64 :=
  match sentiment with
  | Positive => fdiv rating_numeric (Num 5)
  | Negative => fmul (fdiv (fsub (Num 5) rating_numeric) (Num 5)) (Num (-1))
  | Neutral => Num 0
  end.

(** One cell of [column.str.len()]: the number of characters of a string;
    a missing cell stays missing. *)
Definition str_len (cell : option string) : float64 :=
  match cell with
  | Some s => Num (inject_Z (Z.of_nat (String.length s)))
  | None => NaN
  end.

Definition annotate (row : Review.t) : Annotated.t :=
  let s := analyze_sentiment row in
  {| Annotated.review := row;
     Annotated.review_length := str_len (Review.review_content row);
     Annotated.sentiment := s;
     Annotated.sentiment_score := sentiment_score s (Review.rating_numeric row) |}.

(** A review with only a rating and a text. *)
Definition review_of (rating : float64) (text : option string) : Review.t :=
  Review.mk rating text None None.

Definition classify (rating : float64) (text : option string)
  : label * float64 :=
  let a := annotate (review_of rating text) in
  (Annotated.sentiment a, Annotated.sentiment_score a).

(** ** Exceptions *)

Inductive exn : Type := Exn (class_name : string).

Definition ValueError : exn := Exn "ValueError".
Definition ZeroDivisionError : exn := Exn "ZeroDivisionError".

Inductive result (A : Type) : Type :=
| Ok : A -> result A
| Raise : exn -> result A.

Arguments Ok {A} _.
Arguments Raise {A} _.

Definition bind {A B : Type} (m : result A) (f : A -> result B) : result B :=
  match m with
  | Ok a => f a
  | Raise e => Raise e
  end.

Notation "x <- m ;; k" := (bind m (fun x => k))
  (at level 61, m at next level, right associativity).

(** ** The [.str] accessor and the annotated frame *)

Definition AttributeError : exn := Exn "AttributeError".

Definition is_text (cell : option string) : bool :=
  match cell with
  | Some _ => true
  | None => false
  end.

(** [column.str]: the accessor of a column.  The column of an empty frame
    passes; a column in which every cell is missing holds no string (it is
    read as a column of floats) and the accessor raises AttributeError. *)
Definition str_accessor (col : list (option string))
  : result (list (option string)) :=
  match col with
  | [] => Ok []
  | _ => if existsb is_text col then Ok col else Raise AttributeError
  end.

(** [df['review_content'].str.len()] for the whole column. *)
Definition review_length_column (col : list (option string))
  : result (list float64) :=
  cells <- str_accessor col ;;
  Ok (map str_len cells).

(** [load_and_process_data]: the length column is computed first, through
    the accessor, then the two row-wise passes; [annotate] gives each row
    its cell of the three new columns. *)
Definition load_and_process_data (df : list Review.t)
  : result (list Annotated.t) :=
  _ <- review_length_column (map Review.review_content df) ;;
  Ok (map annotate df).

(** ** Series reductions *)

(** The values of a float64 column that are not NaN. *)
Fixpoint dropna (xs : list float64) : list Q :=
  match xs with
  | [] => []
  | NaN :: rest => dropna rest
  | Num q :: rest => q :: dropna rest
  end.

Definition Qsum (qs : list Q) : Q := fold_right Qplus 0 qs.

(** [Series.mean()]: NaN cells are skipped; the mean of no value is NaN. *)
Definition mean (xs : list float64) : float64 :=
  match dropna xs with
  | [] => NaN
  | qs => Num (Qsum qs / inject_Z (Z.of_nat (List.length qs)))
  end.

(** Sorting the entries of a count table by descending count; entries with
    the same count keep their order. *)
Fixpoint insert_desc {A : Type} (e : A * nat) (s : list (A * nat))
  : list (A * nat) :=
  match s with
  | [] => [e]
  | e' :: rest =>
      if (snd e' <=? snd e)%nat then e :: s else e' :: insert_desc e rest
  end.

Definition sort_desc {A : Type} (s : list (A * nat)) : list (A * nat) :=
  fold_right insert_desc [] s.

(** [Series.value_counts()]: one entry per value that occurs, counted in
    order of first occurrence and then sorted by descending count. *)
Fixpoint bump (l : label) (s : list (label * nat)) : list (label * nat) :=
  match s with
  | [] => [(l, 1%nat)]
  | (k, n) :: rest =>
      if label_eqb k l then (k, S n) :: rest else (k, n) :: bump l rest
  end.

Definition count_labels (col : list label) : list (label * nat) :=
  fold_left (fun s l => bump l s) col [].

Definition value_counts (col : list label) : list (label * nat) :=
  sort_desc (count_labels col).

(** [Series.get(key, default)], as an optional cell. *)
Fixpoint lookup (s : list (label * nat)) (key : label) : option nat :=
  match s with
  | [] => None
  | (k, n) :: rest => if label_eqb k key then Some n else lookup rest key
  end.

Definition get (s : list (label * nat)) (key : label) (default : nat) : nat :=
  match lookup s key with
  | Some n => n
  | None => default
  end.

(** ** Key metrics *)

Definition sentiment_column (df : list Annotated.t) : list label :=
  map Annotated.sentiment df.

Definition avg_rating (df : list Annotated.t) : float64 :=
  mean (map (fun a => Review.rating_numeric (Annotated.review a)) df).

(** [(df['sentiment'] == 'Positive').mean() * 100] *)
Definition positive_pct (df : list Annotated.t) : float64 :=
  fmul
    (mean (map (fun l => Num (if label_eqb l Positive then 1 else 0))
               (sentiment_column df)))
    (Num 100).

Definition avg_sentiment (df : list Annotated.t) : float64 :=
  mean (map Annotated.sentiment_score df).

(** ** Detailed summary *)

Definition total_reviews (df : list Annotated.t) : nat := List.length df.

Definition sentiment_counts (df : list Annotated.t) : list (label * nat) :=
  value_counts (sentiment_column df).

(** [count / total_reviews].  A zero total means an empty frame, whose
    [sentiment_counts] is empty, so the numerator is the Python int default
    [0] of [get] and the division raises. *)
Definition truediv (count total : nat) : result Q :=
  if (total =? 0)%nat then Raise ZeroDivisionError
  else Ok (inject_Z (Z.of_nat count) / inject_Z (Z.of_nat total)).

(** One line of the sentiment breakdown: the count and
    [count / total_reviews * 100]. *)
Definition breakdown_line (df : list Annotated.t) (l : label)
  : result (nat * Q) :=
  let count := get (sentiment_counts df) l 0 in
  ratio <- truediv count (total_reviews df) ;;
  Ok (count, ratio * 100).

(** The three lines, in the order the f-string evaluates them. *)
Definition sentiment_breakdown (df : list Annotated.t)
  : result ((nat * Q) * (nat * Q) * (nat * Q)) :=
  p <- breakdown_line df Positive ;;
  u <- breakdown_line df Neutral ;;
  n <- breakdown_line df Negative ;;
  Ok (p, u, n).

(** ** Category insights *)

(** [s.split('|')[0]] *)
Fixpoint first_segment (s : string) : string :=
  match s with
  | EmptyString => EmptyString
  | String c s' =>
      if Ascii.eqb c "|"%char then EmptyString else String c (first_segment s')
  end.

(** [df['category'].str.split('|').str[0]] on one row. *)
Definition top_category (a : Annotated.t) : option string :=
  option_map first_segment (Review.category (Annotated.review a)).

(** Groups are kept sorted by key, as [groupby] sorts them. *)
Fixpoint group_insert (k : string) (v : float64)
  (groups : list (string * list float64)) : list (string * list float64) :=
  match groups with
  | [] => [(k, [v])]
  | (k', vs) :: rest =>
      match String.compare k k' with
      | Lt => (k, [v]) :: groups
      | Eq => (k', v :: vs) :: rest
      | Gt => (k', vs) :: group_insert k v rest
      end
  end.

(** [df.groupby(keys)['sentiment_score']]: rows whose key is missing are
    dropped; the values of a group keep the order of the rows. *)
Fixpoint groupby_score (df : list Annotated.t) : list (string * list float64) :=
  match df with
  | [] => []
  | a :: rest =>
      match top_category a with
      | Some k => group_insert k (Annotated.sentiment_score a) (groupby_score rest)
      | None => groupby_score rest
      end
  end.

Definition cat_sentiment_avg (df : list Annotated.t) : list (string * float64) :=
  map (fun g => (fst g, mean (snd g))) (groupby_score df).

(** The first entry whose value is the best so far under [better], NaN
    entries skipped. *)
Fixpoint arg_best (better : Q -> Q -> bool) (s : list (string * float64))
  (best : option (string * Q)) : option (string * Q) :=
  match s with
  | [] => best
  | (_, NaN) :: rest => arg_best better rest best
  | (k, Num q) :: rest =>
      match best with
      | None => arg_best better rest (Some (k, q))
      | Some (_, b) =>
          if better q b then arg_best better rest (Some (k, q))
          else arg_best better rest best
      end
  end.

Definition Qlt_bool (a b : Q) : bool := negb (Qle_bool b a).

(** [Series.idxmax()]: the label of the first maximum, NaN values skipped.
    An empty series raises ValueError.  On a series of NaN only the result
    depends on the version of pandas (the missing label in pandas 1 and 2,
    a ValueError in pandas 3); the model gives the missing label, and no
    property below rests on that case. *)
Definition idxmax (s : list (string * float64)) : result (option string) :=
  match s with
  | [] => Raise ValueError
  | _ => Ok (option_map fst (arg_best (fun q b => Qlt_bool b q) s None))
  end.

Definition idxmin (s : list (string * float64)) : result (option string) :=
  match s with
  | [] => Raise ValueError
  | _ => Ok (option_map fst (arg_best (fun q b => Qlt_bool q b) s None))
  end.

(** The category column is read through [.str] before it is split. *)
Definition extremal_categories (df : list Annotated.t)
  : result (option string * option string) :=
  _ <- str_accessor (map (fun a => Review.category (Annotated.review a)) df) ;;
  let cat_sentiment_avg := cat_sentiment_avg df in
  most_positive_cat <- idxmax cat_sentiment_avg ;;
  most_negative_cat <- idxmin cat_sentiment_avg ;;
  Ok (most_positive_cat, most_negative_cat).

(** ** Grouping on any key *)

(** [groupby] for a key column of any type: the groups are kept sorted by
    key under [cmp], rows whose key is missing are dropped, and the rows of
    a group keep their order in the frame. *)
Section Grouping.
Context {K V : Type}.
Variable cmp : K -> K -> comparison.

Fixpoint insert_group (k : K) (v : V) (groups : list (K * list V))
  : list (K * list V) :=
  match groups with
  | [] => [(k, [v])]
  | (k', vs) :: rest =>
      match cmp k k' with
      | Lt => (k, [v]) :: groups
      | Eq => (k', v :: vs) :: rest
      | Gt => (k', vs) :: insert_group k v rest
      end
  end.

Fixpoint groupby (key : V -> option K) (rows : list V) : list (K * list V) :=
  match rows with
  | [] => []
  | r :: rest =>
      match key r with
      | Some k => insert_group k r (groupby key rest)
      | None => groupby key rest
      end
  end.
End Grouping.

(** The labels in the order of their names. *)
Definition label_compare (a b : label) : comparison :=
  match a, b with
  | Negative, Negative | Neutral, Neutral | Positive, Positive => Eq
  | Negative, _ => Lt
  | Neutral, Positive => Lt
  | _, _ => Gt
  end.

(** ** Sentiment by star rating *)

Definition rating_key (a : Annotated.t) : option Q :=
  match Review.rating_numeric (Annotated.review a) with
  | NaN => None
  | Num q => Some q
  end.

Definition has_key {K : Type} (key : Annotated.t -> option K)
  (a : Annotated.t) : bool :=
  match key a with
  | Some _ => true
  | None => false
  end.

(** The labels that occur in [labels], in the order of their names. *)
Definition columns_of (labels : list label) : list label :=
  filter (fun l => existsb (label_eqb l) labels) [Negative; Neutral; Positive].

(** [pd.crosstab(keys, df['sentiment'])]: one row per key that occurs, sorted,
    one column per label that occurs among the rows with a key, each cell
    the number of rows with that key and that label. *)
Definition crosstab {K : Type} (cmp : K -> K -> comparison)
  (key : Annotated.t -> option K) (df : list Annotated.t)
  : list (K * list (label * nat)) :=
  let columns := columns_of (sentiment_column (filter (has_key key) df)) in
  map (fun g =>
         (fst g,
          map (fun l => (l, List.length
                              (filter (label_eqb l) (sentiment_column (snd g)))))
              columns))
      (groupby cmp key df).

Definition sentiment_rating (df : list Annotated.t)
  : list (Q * list (label * nat)) :=
  crosstab Qcompare rating_key df.

(** ** Sentiment by top categories *)

(** [Series.value_counts()] on a string column: missing cells are dropped,
    one entry per value in order of first occurrence, then sorted by
    descending count; values with the same count keep their order of first
    occurrence. *)
Fixpoint bump_key (k : string) (s : list (string * nat)) : list (string * nat) :=
  match s with
  | [] => [(k, 1%nat)]
  | (k', n) :: rest =>
      if String.eqb k' k then (k', S n) :: rest else (k', n) :: bump_key k rest
  end.

Definition count_keys (col : list (option string)) : list (string * nat) :=
  fold_left (fun s cell => match cell with
                           | Some k => bump_key k s
                           | None => s
                           end) col [].

Definition value_counts_keys (col : list (option string)) : list (string * nat) :=
  sort_desc (count_keys col).

(** [df['category'].str.split('|').str[0].value_counts().head(5).index] *)
Definition top_categories (df : list Annotated.t) : list string :=
  map fst (firstn 5 (value_counts_keys (map top_category df))).

(** [keys.isin(top_categories)] on one row; a missing key is not in. *)
Definition isin (top : list string) (a : Annotated.t) : bool :=
  match top_category a with
  | Some k => existsb (String.eqb k) top
  | None => false
  end.

Definition cat_sentiment (df : list Annotated.t) : list Annotated.t :=
  filter (isin (top_categories df)) df.

(** [normalize='index'] and [* 100] on one row of a cross-tabulation: each
    count divided by the sum of its row. *)
Definition row_total (cells : list (label * nat)) : nat :=
  fold_right (fun c acc => (snd c + acc)%nat) 0%nat cells.

Definition normalize_row (cells : list (label * nat)) : list (label * float64) :=
  let total := row_total cells in
  map (fun c =>
         (fst c,
          if (total =? 0)%nat then NaN
          else Num (inject_Z (Z.of_nat (snd c)) / inject_Z (Z.of_nat total) * 100)))
      cells.

Definition cat_sentiment_pct (df : list Annotated.t)
  : list (string * list (label * float64)) :=
  map (fun r => (fst r, normalize_row (snd r)))
      (crosstab String.compare top_category (cat_sentiment df)).

(** ** Review length by sentiment *)

(** [df.groupby('sentiment')['review_length'].mean()] *)
Definition sentiment_length (df : list Annotated.t) : list (label * float64) :=
  map (fun g => (fst g, mean (map Annotated.review_length (snd g))))
      (groupby label_compare (fun a => Some (Annotated.sentiment a)) df).

(** ** Review characteristics *)


(** The cells of a string column that are not missing. *)
Fixpoint present (col : list (option string)) : list string :=
  match col with
  | [] => []
  | Some s :: rest => s :: present rest
  | None :: rest => present rest
  end.

(** [Series.nunique()]: the number of distinct values, missing cells left
    out. *)
Definition nunique (col : list (option string)) : nat :=
  List.length (nodup string_dec (present col)).

Definition products_analyzed (df : list Annotated.t) : nat :=
  nunique (map (fun a => Review.product_id (Annotated.review a)) df).

Definition categories_covered (df : list Annotated.t) : nat :=
  nunique (map top_category df).

(** * Specification vocabulary *)

(** ** Substrings and counting *)

(** [w] occurs as a substring of [s]. *)
Definition Substring (w s : string) : Prop :=
  exists pre post, s = pre ++ w ++ post.

(** [n] is the number of words of [words], counted with repetition, that
    satisfy [P]. *)
Inductive Counts (P : string -> Prop) : list string -> nat -> Prop :=
| Counts_nil : Counts P [] 0
| Counts_hit w ws n : P w -> Counts P ws n -> Counts P (w :: ws) (S n)
| Counts_miss w ws n : ~ P w -> Counts P ws n -> Counts P (w :: ws) n.

(** ** The guards of the label rule *)

(** [rating >= k] and [rating <= k] as propositions; false of NaN. *)
Definition at_least (k : Q) (x : float64) : Prop :=
  match x with
  | NaN => False
  | Num q => k <= q
  end.

Definition at_most (k : Q) (x : float64) : Prop :=
  match x with
  | NaN => False
  | Num q => q <= k
  end.

(** The two guards of [analyze_sentiment]. *)
Definition positive_rule (row : Review.t) : Prop :=
  at_least 4 (Review.rating_numeric row) /\ (neg_count row < pos_count row)%nat.

Definition negative_rule (row : Review.t) : Prop :=
  at_most 2 (Review.rating_numeric row) \/ (pos_count row < neg_count row)%nat.

(** ** Occurrences of a label *)

Definition count_label (k : label) (col : list label) : nat :=
  List.length (filter (label_eqb k) col).

(** ** Sorted association lists *)

Section Assoc.
Context {V : Type}.

(** The value stored under key [k], if any. *)
Fixpoint assoc (k : string) (g : list (string * V)) : option V :=
  match g with
  | [] => None
  | (k', v) :: rest => if String.eqb k' k then Some v else assoc k rest
  end.

(** Every key of [g] is above [k]. *)
Definition keys_above (k : string) (g : list (string * V)) : Prop :=
  Forall (fun e => String.compare k (fst e) = Lt) g.

Inductive sorted_keys : list (string * V) -> Prop :=
| sorted_nil : sorted_keys []
| sorted_cons k v g :
    keys_above k g -> sorted_keys g -> sorted_keys ((k, v) :: g).

End Assoc.

Definition values_of (k : string) (g : list (string * list float64))
  : list float64 :=
  match assoc k g with
  | Some vs => vs
  | None => []
  end.

(** ** Categories of a frame *)

(** The rows of category [k], and their scores in row order. *)
Definition in_category (k : string) (a : Annotated.t) : bool :=
  match top_category a with
  | Some k' => String.eqb k' k
  | None => false
  end.

Definition category_scores (df : list Annotated.t) (k : string) : list float64 :=
  map Annotated.sentiment_score (filter (in_category k) df).

(** The mean score of the rows of category [k]. *)
Definition category_mean (df : list Annotated.t) (k : string) : float64 :=
  mean (category_scores df k).

Definition has_category (df : list Annotated.t) (k : string) : Prop :=
  exists a, In a df /\ top_category a = Some k.

Definition no_category (df : list Annotated.t) : Prop :=
  forall a, In a df -> top_category a = None.

(** ** A sample frame *)

Definition sample_frame : list Annotated.t :=
  map annotate
    [Review.mk (Num 5) (Some "great") (Some "B|x") (Some "p1");
     Review.mk (Num 1) (Some "bad") (Some "A|y|z") (Some "p2");
     Review.mk (Num 4) (Some "the best") (Some "A") (Some "p1");
     Review.mk (Num 3) None (Some "C") (Some "p3")].

(** ** Upper case *)

(** [str.upper] on ASCII letters, the counterpart of [lower]. *)
Definition upper_ascii (c : ascii) : ascii :=
  let n := nat_of_ascii c in
  if (97 <=? n)%nat && (n <=? 122)%nat then ascii_of_nat (n - 32) else c.

Fixpoint upper (s : string) : string :=
  match s with
  | EmptyString => EmptyString
  | String c s' => String (upper_ascii c) (upper s')
  end.

(** Text of ASCII characters only. *)
Fixpoint is_ascii (s : string) : bool :=
  match s with
  | EmptyString => true
  | String c s' => (nat_of_ascii c <? 128)%nat && is_ascii s'
  end.

(** A review that differs from [row] in its text only. *)
Definition with_text (row : Review.t) (text : string) : Review.t :=
  Review.mk (Review.rating_numeric row) (Some text)
            (Review.category row) (Review.product_id row).

(** ** Groups and their rows *)

Section GroupVocabulary.
Context {K V X : Type}.
Variable cmp : K -> K -> comparison.

(** Two keys are the same under [cmp]. *)
Definition same_key (k k' : K) : bool :=
  match cmp k k' with
  | Eq => true
  | _ => false
  end.

(** The entry stored under a key that is the same as [k], if any. *)
Fixpoint find_group (k : K) (g : list (K * X)) : option X :=
  match g with
  | [] => None
  | (k', x) :: rest => if same_key k' k then Some x else find_group k rest
  end.

(** The rows whose key is the same as [k], in frame order. *)
Definition rows_of (key : V -> option K) (k : K) (rows : list V) : list V :=
  filter (fun r => match key r with
                   | Some k' => same_key k' k
                   | None => false
                   end) rows.

(** The keys of [g] are strictly ascending. *)
Definition ascending (g : list (K * X)) : Prop :=
  StronglySorted (fun a b => cmp (fst a) (fst b) = Lt) g.
End GroupVocabulary.

(** ** Sizes of categories *)

(** The number of rows of category [k]. *)
Definition category_size (df : list Annotated.t) (k : string) : nat :=
  List.length (filter (in_category k) df).

(** The rows labelled [l]. *)
Definition labelled (l : label) (df : list Annotated.t) : list Annotated.t :=
  filter (fun a => label_eqb (Annotated.sentiment a) l) df.

(** ** Counting the cells of a column *)

(** The number of cells of [col] that hold [k]. *)
Definition occurrences (k : string) (col : list (option string)) : nat :=
  List.length (filter (fun c => match c with
                                | Some k' => String.eqb k' k
                                | None => false
                                end) col).

(** The count stored under [k], or [0]. *)
Definition count_of (k : string) (s : list (string * nat)) : nat :=
  match assoc k s with
  | Some n => n
  | None => 0%nat
  end.

(** ** A sample of reviews *)

Definition sample_reviews : list Review.t :=
  [Review.mk (Num 5) (Some "great") (Some "B|x") (Some "p1");
   Review.mk (Num 1) (Some "bad") (Some "A|y|z") (Some "p2");
   Review.mk NaN (Some "awful") (Some "A") None].

(** * Properties *)

(** ** The [in] operator finds substrings *)

Lemma starts_with_prefix (w s : string) :
  starts_with w s = true <-> exists post, s = w ++ post.
Proof.
  revert s; induction w as [|a w IH]; intros s.
  - split; [intros _; now exists s | reflexivity].
  - destruct s as [|b s]; cbn [starts_with append].
    + split; [discriminate | intros [post H]; discriminate].
    + rewrite andb_true_iff, Ascii.eqb_eq, IH. split.
      * intros [-> [post ->]]. now exists post.
      * intros [post H]. injection H as -> ->. split; [reflexivity | now exists post].
Qed.

Lemma contains_substring (w s : string) :
  contains w s = true <-> Substring w s.
Proof.
  induction s as [|c s IH]; cbn [contains]; rewrite orb_true_iff.
  - split.
    + intros [H | H]; [|discriminate].
      apply starts_with_prefix in H as [post H]. now exists "", post.
    + intros [pre [post H]]. left. apply starts_with_prefix.
      destruct pre; [|discriminate]. now exists post.
  - rewrite IH. split.
    + intros [H | [pre [post ->]]].
      * apply starts_with_prefix in H as [post H]. now exists "", post.
      * now exists (String c pre), post.
    + intros [[|c' pre] [post H]].
      * left. apply starts_with_prefix. now exists post.
      * right. injection H as _ ->. now exists pre, post.
Qed.

Lemma not_contains_substring (w s : string) :
  contains w s = false <-> ~ Substring w s.
Proof.
  rewrite <- contains_substring. now destruct (contains w s).
Qed.

Lemma count_words_counts (words : list string) (content : string) :
  Counts (fun w => Substring w content) words (count_words words content).
Proof.
  induction words as [|w ws IH]; cbn [count_words].
  - constructor.
  - destruct (contains w content) eqn:E.
    + apply Counts_hit; [now apply contains_substring | exact IH].
    + apply Counts_miss; [now apply not_contains_substring | exact IH].
Qed.

Lemma Counts_unique (P : string -> Prop) (words : list string) (n m : nat) :
  Counts P words n -> Counts P words m -> n = m.
Proof.
  intros Hn; revert m; induction Hn; intros m Hm; inversion Hm; subst;
    try reflexivity; try contradiction; auto.
Qed.

(** C5: for every lexicon and text, [count_words] on the lowercased text is
    the number of lexicon words that occur in it as substrings, and so are
    the [pos_count] and [neg_count] of a row; matching ignores ASCII case
    and is not tokenized: ["AwesomeSauce"] counts ["awesome"]. *)
Theorem count_words_is_substring_count :
  forall (words : list string) (text : string) (row : Review.t),
    (forall n, Counts (fun w => Substring w (lower text)) words n <->
               n = count_words words (lower text)) /\
    Counts (fun w => Substring w (lower (str (Review.review_content row))))
           positive_words (pos_count row) /\
    Counts (fun w => Substring w (lower (str (Review.review_content row))))
           negative_words (neg_count row) /\
    Substring "awesome" (lower "AwesomeSauce") /\
    pos_count (review_of NaN (Some "AwesomeSauce")) = 1%nat.
Proof.
  intros words text row. repeat split.
  - intros H. exact (Counts_unique _ _ _ _ H (count_words_counts _ _)).
  - intros ->. apply count_words_counts.
  - apply count_words_counts.
  - apply count_words_counts.
  - now exists "", "sauce".
Qed.

(** ** The label rule *)

Lemma fge_at_least (x : float64) (k : Q) : fge x k = true <-> at_least k x.
Proof. destruct x; cbn; [split; [discriminate | tauto] | apply Qle_bool_iff]. Qed.

Lemma fle_at_most (x : float64) (k : Q) : fle x k = true <-> at_most k x.
Proof. destruct x; cbn; [split; [discriminate | tauto] | apply Qle_bool_iff]. Qed.

Lemma positive_guard (row : Review.t) :
  fge (Review.rating_numeric row) 4 && (neg_count row <? pos_count row)%nat = true
  <-> positive_rule row.
Proof.
  unfold positive_rule. now rewrite andb_true_iff, fge_at_least, Nat.ltb_lt.
Qed.

Lemma negative_guard (row : Review.t) :
  fle (Review.rating_numeric row) 2 || (pos_count row <? neg_count row)%nat = true
  <-> negative_rule row.
Proof.
  unfold negative_rule. now rewrite orb_true_iff, fle_at_most, Nat.ltb_lt.
Qed.

Lemma analyze_sentiment_cases (row : Review.t) :
  (positive_rule row /\ analyze_sentiment row = Positive) \/
  (~ positive_rule row /\ negative_rule row /\ analyze_sentiment row = Negative) \/
  (~ positive_rule row /\ ~ negative_rule row /\ analyze_sentiment row = Neutral).
Proof.
  unfold analyze_sentiment; cbv zeta.
  destruct (fge _ 4 && _) eqn:Ep.
  - left. split; [now apply positive_guard | reflexivity].
  - assert (~ positive_rule row) as Hp
      by (rewrite <- positive_guard, Ep; discriminate).
    destruct (fle _ 2 || _) eqn:En.
    + right; left. repeat split; [exact Hp | now apply negative_guard].
    + right; right. repeat split; [exact Hp|].
      rewrite <- negative_guard, En; discriminate.
Qed.

(** C1: the label is Positive exactly when [rating >= 4] and
    [pos_count > neg_count]; otherwise Negative exactly when [rating <= 2] or
    [neg_count > pos_count]; otherwise Neutral; the two counts are the
    lexicon substring counts of the lowercased text.  The lowercased text
    is pinned on examples: a missing text reads ["nan"], upper-case letters
    are folded before the words are searched, and the four scenarios of the
    specification get the labels it gives. *)
Theorem analyze_sentiment_rule :
  forall row : Review.t,
    (analyze_sentiment row = Positive <-> positive_rule row) /\
    (analyze_sentiment row = Negative <->
       ~ positive_rule row /\ negative_rule row) /\
    (analyze_sentiment row = Neutral <->
       ~ positive_rule row /\ ~ negative_rule row) /\
    Counts (fun w => Substring w (lower (str (Review.review_content row))))
           positive_words (pos_count row) /\
    Counts (fun w => Substring w (lower (str (Review.review_content row))))
           negative_words (neg_count row) /\
    content_of (review_of NaN None) = "nan" /\
    content_of (review_of (Num 5) (Some "This Product is AMAZING and the BEST")) =
      "this product is amazing and the best" /\
    pos_count (review_of (Num 5) (Some "This Product is AMAZING and the BEST")) =
      2%nat /\
    neg_count (review_of (Num 1) (Some "TERRIBLE, Broken on arrival")) = 2%nat /\
    analyze_sentiment
      (review_of (Num 5) (Some "This Product is AMAZING and the BEST")) = Positive /\
    analyze_sentiment
      (review_of (Num 5) (Some "this product is amazing and the best")) = Positive /\
    analyze_sentiment (review_of (Num 4) (Some "Worst purchase, USELESS")) = Negative /\
    analyze_sentiment (review_of (Num 1) (Some "terrible, broken on arrival")) =
      Negative /\
    analyze_sentiment (review_of (Num 3) (Some "it's okay, does the job")) = Neutral /\
    analyze_sentiment (review_of NaN (Some "great product")) = Neutral.
Proof.
  intros row.
  assert (H := analyze_sentiment_cases row).
  split; [|split; [|split; [|split; [|split]]]];
    try apply count_words_counts;
    try (destruct H as [[Hp E] | [[Hp [Hn E]] | [Hp [Hn E]]]]; rewrite E;
         (split; [intros H; try discriminate H; tauto | tauto])).
  repeat split.
Qed.

(** ** The score rule *)

Lemma annotate_sentiment (row : Review.t) :
  Annotated.sentiment (annotate row) = analyze_sentiment row.
Proof. reflexivity. Qed.

Lemma annotate_score (row : Review.t) :
  Annotated.sentiment_score (annotate row) =
  sentiment_score (analyze_sentiment row) (Review.rating_numeric row).
Proof. reflexivity. Qed.

Lemma score_positive_num (q : Q) :
  sentiment_score Positive (Num q) = Num (q / 5).
Proof. reflexivity. Qed.

Lemma score_negative_num (q : Q) :
  sentiment_score Negative (Num q) = Num ((5 - q) / 5 * -1).
Proof. reflexivity. Qed.

Lemma negative_formula (q : Q) : (5 - q) / 5 * -1 == - (5 - q) / 5.
Proof. field. Qed.

(** C2, as the code has it: with a rating [q] in [[1,5]] the score is
    [q / 5] under Positive, in (0, 1]; [-(5 - q) / 5] under Negative, in
    [[-1, 0]] and below zero exactly when [q < 5]; and [0] under Neutral. *)
Theorem sentiment_score_by_label :
  forall (row : Review.t) (q : Q),
    Review.rating_numeric row = Num q -> 1 <= q -> q <= 5 ->
    (Annotated.sentiment (annotate row) = Positive ->
       holds (Annotated.sentiment_score (annotate row)) (q / 5) /\
       positive (Annotated.sentiment_score (annotate row)) /\
       within 0 1 (Annotated.sentiment_score (annotate row))) /\
    (Annotated.sentiment (annotate row) = Negative ->
       holds (Annotated.sentiment_score (annotate row)) (- (5 - q) / 5) /\
       within (-1) 0 (Annotated.sentiment_score (annotate row)) /\
       (negative (Annotated.sentiment_score (annotate row)) <-> q < 5)) /\
    (Annotated.sentiment (annotate row) = Neutral ->
       holds (Annotated.sentiment_score (annotate row)) 0).
Proof.
  intros row q Hr H1 H5.
  rewrite annotate_sentiment, annotate_score, Hr.
  split; [|split]; intros ->.
  - rewrite score_positive_num. cbn [holds positive within].
    split; [reflexivity|].
    assert (q / 5 == q * (1 # 5)) as -> by field. lra.
  - rewrite score_negative_num. cbn [holds negative within].
    split; [apply negative_formula|].
    assert ((5 - q) / 5 * -1 == (q - 5) * (1 # 5)) as -> by field.
    split; [lra|]. split; lra.
  - reflexivity.
Qed.

Lemma sentiment_score_by_label_witness :
  let row := review_of (Num 1) (Some "terrible, broken on arrival") in
  Annotated.sentiment (annotate row) = Negative /\
  holds (Annotated.sentiment_score (annotate row)) (- (5 - 1) / 5).
Proof.
  intros row.
  split; [reflexivity|].
  refine (proj1 (proj1 (proj2 (sentiment_score_by_label row 1 eq_refl _ _)) eq_refl));
    unfold Qle; simpl; lia.
Defined.

(** A Negative review rated 5 has score zero, so Negative does not force a
    score below zero on the domain [[1,5]]. *)
Lemma negative_label_with_zero_score :
  Annotated.sentiment (annotate (review_of (Num 5) (Some "bad"))) = Negative /\
  holds (Annotated.sentiment_score (annotate (review_of (Num 5) (Some "bad")))) 0 /\
  ~ (forall (row : Review.t) (q : Q),
       Review.rating_numeric row = Num q -> 1 <= q -> q <= 5 ->
       Annotated.sentiment (annotate row) = Negative ->
       negative (Annotated.sentiment_score (annotate row))).
Proof.
  split; [reflexivity|]. split; [reflexivity|].
  intros H.
  specialize (H (review_of (Num 5) (Some "bad")) 5 eq_refl).
  assert (1 <= 5) as H1 by (unfold Qle; simpl; lia).
  assert (5 <= 5) as H5 by (unfold Qle; simpl; lia).
  specialize (H H1 H5 eq_refl).
  vm_compute in H. discriminate H.
Qed.

(** ** Missing rating *)

(** C3, as the code has it: with a missing rating both rating comparisons are
    false, so the label is Negative exactly when [neg_count > pos_count] and
    Neutral otherwise, never Positive; the score is [0] under Neutral and NaN
    under Negative; a missing rating with ["great product"] gives Neutral
    and [0]. *)
Theorem missing_rating_label_and_score :
  forall row : Review.t,
    Review.rating_numeric row = NaN ->
    ~ at_least 4 (Review.rating_numeric row) /\
    ~ at_most 2 (Review.rating_numeric row) /\
    (Annotated.sentiment (annotate row) = Negative <->
       (pos_count row < neg_count row)%nat) /\
    (Annotated.sentiment (annotate row) = Neutral <->
       (neg_count row <= pos_count row)%nat) /\
    Annotated.sentiment (annotate row) <> Positive /\
    (Annotated.sentiment (annotate row) = Neutral ->
       Annotated.sentiment_score (annotate row) = Num 0) /\
    (Annotated.sentiment (annotate row) = Negative ->
       Annotated.sentiment_score (annotate row) = NaN) /\
    classify NaN (Some "great product") = (Neutral, Num 0).
Proof.
  intros row Hr.
  rewrite annotate_sentiment, annotate_score, Hr.
  split; [exact (fun H => H)|]. split; [exact (fun H => H)|].
  assert (~ positive_rule row) as Hp by (unfold positive_rule; rewrite Hr; cbn; tauto).
  assert (negative_rule row <-> (pos_count row < neg_count row)%nat) as Hn
    by (unfold negative_rule; rewrite Hr; cbn; tauto).
  destruct (analyze_sentiment_cases row) as [[Hp' E] | [[_ [Hn' E]] | [_ [Hn' E]]]];
    [contradiction | |]; rewrite E.
  - apply Hn in Hn'.
    repeat split; try discriminate; try reflexivity; try lia; auto.
  - rewrite Hn in Hn'.
    repeat split; try discriminate; try reflexivity; try lia; auto.
Qed.

Lemma missing_rating_label_and_score_witness :
  Annotated.sentiment (annotate (review_of NaN (Some "bad"))) = Negative /\
  Annotated.sentiment_score (annotate (review_of NaN (Some "bad"))) = NaN.
Proof.
  split; [reflexivity|].
  exact (proj1 (proj2 (proj2 (proj2 (proj2 (proj2 (proj2
    (missing_rating_label_and_score (review_of NaN (Some "bad")) eq_refl)))))))
    eq_refl).
Defined.

(** A missing rating with the text ["bad"] is labelled Negative and scored
    NaN, so the score of a review without rating is not always [0]. *)
Lemma missing_rating_score_is_nan :
  classify NaN (Some "bad") = (Negative, NaN) /\
  ~ (forall row : Review.t,
       Review.rating_numeric row = NaN ->
       holds (Annotated.sentiment_score (annotate row)) 0).
Proof.
  split; [reflexivity|].
  intros H. exact (H (review_of NaN (Some "bad")) eq_refl).
Qed.

(** ** Positive reviews *)

(** C10: a Positive label implies a present rating [q >= 4] and
    [pos_count > neg_count]; the score is then [q / 5], in [[0.8, 1]] when
    [q <= 5]. *)
Theorem positive_label_invariant :
  forall row : Review.t,
    Annotated.sentiment (annotate row) = Positive ->
    exists q : Q,
      Review.rating_numeric row = Num q /\ 4 <= q /\
      (neg_count row < pos_count row)%nat /\
      holds (Annotated.sentiment_score (annotate row)) (q / 5) /\
      (q <= 5 -> within (4 # 5) 1 (Annotated.sentiment_score (annotate row))).
Proof.
  intros row E. rewrite annotate_score. rewrite annotate_sentiment in E.
  rewrite E.
  destruct (analyze_sentiment_cases row) as [[Hp _] | [[_ [_ E']] | [_ [_ E']]]];
    [| congruence | congruence].
  destruct Hp as [Hq Hc].
  destruct (Review.rating_numeric row) as [|q]; [contradiction|].
  exists q. cbn in Hq. rewrite score_positive_num. cbn [holds within].
  repeat split; try assumption; try reflexivity.
  - assert (q / 5 == q * (1 # 5)) as -> by field. lra.
  - assert (q / 5 == q * (1 # 5)) as -> by field. lra.
Qed.

Lemma positive_label_invariant_witness :
  exists q : Q,
    Review.rating_numeric (review_of (Num 5) (Some "great")) = Num q /\ 4 <= q.
Proof.
  destruct (positive_label_invariant (review_of (Num 5) (Some "great")) eq_refl)
    as [q [Hq [H4 _]]].
  exists q. split; assumption.
Defined.

(** ** Review length *)

Lemma length_counts_characters (s : string) :
  String.length s = List.length (list_ascii_of_string s).
Proof. induction s as [|c s IH]; cbn; [reflexivity | now rewrite IH]. Qed.

Lemma str_accessor_ok (col : list (option string)) :
  col = [] \/ (exists s, In (Some s) col) -> str_accessor col = Ok col.
Proof.
  intros H. unfold str_accessor. destruct col as [|c col]; [reflexivity|].
  assert (existsb is_text (c :: col) = true) as ->; [|reflexivity].
  destruct H as [H | [s Hs]]; [discriminate|].
  apply existsb_exists. now exists (Some s).
Qed.

Lemma str_accessor_raises (col : list (option string)) :
  col <> [] -> (forall c, In c col -> c = None) ->
  str_accessor col = Raise AttributeError.
Proof.
  intros Hne Hall. unfold str_accessor. destruct col as [|c col]; [contradiction|].
  assert (existsb is_text (c :: col) = false) as ->; [|reflexivity].
  destruct (existsb is_text (c :: col)) eqn:E; [|reflexivity].
  apply existsb_exists in E as [x [Hx Ht]].
  rewrite (Hall x Hx) in Ht. discriminate.
Qed.

Lemma str_accessor_cases (col : list (option string)) :
  (str_accessor col = Ok col /\ (col = [] \/ exists s, In (Some s) col)) \/
  (str_accessor col = Raise AttributeError /\
   col <> [] /\ forall c, In c col -> c = None).
Proof.
  destruct col as [|c col]; [left; split; [reflexivity | now left]|].
  destruct (existsb is_text (c :: col)) eqn:E.
  - left. apply existsb_exists in E as [[s|] [Hx Ht]]; [|discriminate].
    assert (exists s, In (Some s) (c :: col)) as Hs by now exists s.
    split; [apply str_accessor_ok; now right | now right].
  - right. assert (forall x, In x (c :: col) -> x = None) as Hall.
    { intros [s|] Hx; [|reflexivity].
      assert (existsb is_text (c :: col) = true) as Ht
        by (apply existsb_exists; now exists (Some s)).
      congruence. }
    split; [apply str_accessor_raises; [discriminate | exact Hall]|].
    split; [discriminate | exact Hall].
Qed.

Lemma load_and_process_data_cases (df : list Review.t) :
  (load_and_process_data df = Ok (map annotate df) /\
   (df = [] \/ exists row s, In row df /\ Review.review_content row = Some s)) \/
  (load_and_process_data df = Raise AttributeError /\
   df <> [] /\ forall row, In row df -> Review.review_content row = None).
Proof.
  unfold load_and_process_data, review_length_column.
  destruct (str_accessor_cases (map Review.review_content df))
    as [[E H] | [E [Hne Hall]]]; rewrite E; cbn [bind]; [left | right].
  - split; [reflexivity|]. destruct H as [H | [s Hs]].
    + left. now destruct df.
    + right. apply in_map_iff in Hs as [row [Hr Hin]]. now exists row, s.
  - split; [reflexivity|]. split; [now destruct df|].
    intros row Hin. apply Hall. now apply in_map.
Qed.

Lemma load_and_process_data_ok (df : list Review.t) (adf : list Annotated.t) :
  load_and_process_data df = Ok adf -> adf = map annotate df.
Proof.
  destruct (load_and_process_data_cases df) as [[E _] | [E _]]; rewrite E;
    [now intros [= <-] | discriminate].
Qed.

(** C8, as the code has it: in the frame that [load_and_process_data]
    returns, [review_length] is the number of characters of the text when
    the text is present and NaN when it is missing, in which case another
    review of the frame has a text; a non-empty frame in which no review has
    a text is not annotated at all: the length column raises
    AttributeError. *)
Theorem review_length_of_text :
  forall (df : list Review.t) (adf : list Annotated.t) (a : Annotated.t),
    (load_and_process_data df = Ok adf -> In a adf ->
       (forall s : string,
          Review.review_content (Annotated.review a) = Some s ->
          Annotated.review_length a =
          Num (inject_Z (Z.of_nat (List.length (list_ascii_of_string s))))) /\
       (Review.review_content (Annotated.review a) = None ->
          Annotated.review_length a = NaN /\
          exists b s, In b adf /\
                      Review.review_content (Annotated.review b) = Some s)) /\
    (df <> [] ->
     (forall row, In row df -> Review.review_content row = None) ->
     load_and_process_data df = Raise AttributeError).
Proof.
  intros df adf a. split.
  - intros Hok Ha.
    destruct (load_and_process_data_cases df) as [[E Hd] | [E _]];
      rewrite E in Hok; [|discriminate].
    injection Hok as <-. apply in_map_iff in Ha as [row [<- Hrow]].
    cbn [annotate Annotated.review Annotated.review_length]. split.
    + intros s ->. cbn [str_len]. now rewrite length_counts_characters.
    + intros Hn. rewrite Hn. split; [reflexivity|].
      destruct Hd as [-> | [r [s [Hr Hs]]]]; [contradiction|].
      exists (annotate r), s. split; [now apply in_map | exact Hs].
  - intros Hne Hall.
    destruct (load_and_process_data_cases df) as [[_ Hd] | [E _]]; [|exact E].
    destruct Hd as [-> | [r [s [Hr Hs]]]]; [contradiction|].
    rewrite (Hall r Hr) in Hs. discriminate.
Qed.

Lemma review_length_of_text_witness :
  Annotated.review_length (annotate (review_of (Num 3) (Some "fine"))) = Num 4 /\
  Annotated.review_length (annotate (review_of (Num 3) None)) = NaN /\
  load_and_process_data [review_of (Num 3) None] = Raise AttributeError.
Proof.
  pose (df := [review_of (Num 3) (Some "fine"); review_of (Num 3) None]).
  assert (load_and_process_data df = Ok (map annotate df)) as Hok by reflexivity.
  split; [|split].
  - exact (proj1 (proj1 (review_length_of_text df (map annotate df)
                           (annotate (review_of (Num 3) (Some "fine"))))
                    Hok (or_introl eq_refl)) "fine" eq_refl).
  - exact (proj1 (proj2 (proj1 (review_length_of_text df (map annotate df)
                                  (annotate (review_of (Num 3) None)))
                           Hok (or_intror (or_introl eq_refl))) eq_refl)).
  - refine (proj2 (review_length_of_text [review_of (Num 3) None] []
                     (annotate (review_of (Num 3) None))) _ _).
    + discriminate.
    + intros row [<- | []]. reflexivity.
Defined.

(** In a frame of two reviews, one with a text and one without, the length
    of the missing text is NaN, not [0]. *)
Lemma missing_text_length_is_nan :
  load_and_process_data [review_of (Num 3) (Some "fine"); review_of (Num 3) None] =
    Ok [annotate (review_of (Num 3) (Some "fine")); annotate (review_of (Num 3) None)] /\
  Annotated.review_length (annotate (review_of (Num 3) None)) = NaN /\
  ~ holds (Annotated.review_length (annotate (review_of (Num 3) None))) 0 /\
  ~ (forall (df : list Review.t) (adf : list Annotated.t) (a : Annotated.t),
       load_and_process_data df = Ok adf -> In a adf ->
       Review.review_content (Annotated.review a) = None ->
       holds (Annotated.review_length a) 0).
Proof.
  split; [reflexivity|]. split; [reflexivity|]. split; [exact (fun H => H)|].
  intros H.
  exact (H [review_of (Num 3) (Some "fine"); review_of (Num 3) None] _
           (annotate (review_of (Num 3) None)) eq_refl
           (or_intror (or_introl eq_refl)) eq_refl).
Qed.

(** ** Label distribution *)

Lemma label_eqb_eq (a b : label) : label_eqb a b = true <-> a = b.
Proof. destruct a, b; cbn; split; congruence. Qed.

Lemma label_eqb_refl (a : label) : label_eqb a a = true.
Proof. now destruct a. Qed.

Lemma label_eqb_sym (a b : label) : label_eqb a b = label_eqb b a.
Proof. now destruct a, b. Qed.

Lemma get_bump (l k : label) (s : list (label * nat)) :
  get (bump l s) k 0 =
  ((if label_eqb k l then 1 else 0) + get s k 0)%nat.
Proof.
  unfold get.
  induction s as [|[k' n] s IH]; cbn [bump lookup].
  - rewrite (label_eqb_sym l k). now destruct (label_eqb k l).
  - destruct (label_eqb k' l) eqn:E; cbn [lookup].
    + apply label_eqb_eq in E; subst k'.
      rewrite (label_eqb_sym l k). now destruct (label_eqb k l).
    + destruct (label_eqb k' k) eqn:E'; [|exact IH].
      apply label_eqb_eq in E'; subst k'.
      now rewrite E.
Qed.

Lemma get_fold_bump (col : list label) (acc : list (label * nat)) (k : label) :
  get (fold_left (fun s l => bump l s) col acc) k 0 =
  (get acc k 0 + count_label k col)%nat.
Proof.
  revert acc; induction col as [|l col IH]; intros acc; cbn [fold_left].
  - unfold count_label; cbn. lia.
  - rewrite IH, get_bump. unfold count_label; cbn [filter].
    destruct (label_eqb k l); cbn [List.length]; lia.
Qed.

Lemma insert_desc_perm {A : Type} (e : A * nat) (s : list (A * nat)) :
  Permutation (insert_desc e s) (e :: s).
Proof.
  induction s as [|e' s IH]; cbn [insert_desc]; [reflexivity|].
  destruct (snd e' <=? snd e)%nat; [reflexivity|].
  rewrite IH. apply perm_swap.
Qed.

Lemma sort_desc_perm {A : Type} (s : list (A * nat)) :
  Permutation (sort_desc s) s.
Proof.
  unfold sort_desc. induction s as [|e s IH]; cbn [fold_right]; [reflexivity|].
  rewrite insert_desc_perm. now constructor.
Qed.

Lemma insert_desc_sorted {A : Type} (e : A * nat) (s : list (A * nat)) :
  StronglySorted (fun a b => (snd b <= snd a)%nat) s ->
  StronglySorted (fun a b => (snd b <= snd a)%nat) (insert_desc e s).
Proof.
  induction 1 as [|e' s Hs IH Hk]; cbn [insert_desc].
  - repeat constructor.
  - destruct (Nat.leb_spec (snd e') (snd e)).
    + constructor; [now constructor|].
      constructor; [exact H|].
      eapply Forall_impl; [|exact Hk]. intros x Hx. cbn in Hx. lia.
    + constructor; [exact IH|].
      rewrite Forall_forall. intros x Hx.
      apply (Permutation_in _ (insert_desc_perm e s)) in Hx.
      destruct Hx as [<- | Hx]; [lia|].
      rewrite Forall_forall in Hk. now apply Hk.
Qed.

Lemma sort_desc_sorted {A : Type} (s : list (A * nat)) :
  StronglySorted (fun a b => (snd b <= snd a)%nat) (sort_desc s).
Proof.
  unfold sort_desc. induction s as [|e s IH]; cbn [fold_right];
    [constructor | now apply insert_desc_sorted].
Qed.

Lemma lookup_bump (l k : label) (s : list (label * nat)) :
  lookup (bump l s) k =
  if label_eqb k l then Some (S (get s k 0)) else lookup s k.
Proof.
  unfold get.
  induction s as [|[k' n] s IH]; cbn [bump lookup].
  - rewrite (label_eqb_sym l k). now destruct (label_eqb k l).
  - destruct (label_eqb k' l) eqn:E; cbn [lookup].
    + apply label_eqb_eq in E; subst k'.
      rewrite (label_eqb_sym l k). now destruct (label_eqb k l).
    + destruct (label_eqb k' k) eqn:E'; [|exact IH].
      apply label_eqb_eq in E'; subst k'. now rewrite E.
Qed.

Lemma keys_bump (l : label) (s : list (label * nat)) :
  NoDup (map fst s) -> NoDup (map fst (bump l s)) /\
  forall k, In k (map fst (bump l s)) <-> k = l \/ In k (map fst s).
Proof.
  induction s as [|[k' n] s IH]; cbn [bump map fst]; intros Hd.
  - split; [repeat constructor; intros [] | intros k; cbn; intuition].
  - inversion Hd as [|? ? Hnin Hd']; subst.
    destruct (label_eqb k' l) eqn:E; cbn [map fst].
    + apply label_eqb_eq in E; subst k'.
      split; [exact Hd | intros k; cbn; intuition].
    + destruct (IH Hd') as [IH1 IH2]. split.
      * constructor; [|exact IH1]. rewrite IH2. intros [-> | H]; [|contradiction].
        rewrite label_eqb_refl in E. discriminate.
      * intros k. cbn [In]. rewrite IH2. intuition.
Qed.

Lemma lookup_in (s : list (label * nat)) (k : label) (n : nat) :
  NoDup (map fst s) -> (In (k, n) s <-> lookup s k = Some n).
Proof.
  induction s as [|[k' m] s IH]; cbn [map fst lookup In]; intros Hd.
  - split; [intros [] | discriminate].
  - inversion Hd as [|? ? Hnin Hd']; subst.
    destruct (label_eqb k' k) eqn:E.
    + apply label_eqb_eq in E; subst k'. split.
      * intros [[= ->] | H]; [reflexivity|].
        contradiction Hnin. apply in_map_iff. now exists (k, n).
      * intros [= ->]. now left.
    + rewrite <- (IH Hd'). split; [|now right].
      intros [[= -> _] | H]; [|exact H].
      rewrite label_eqb_refl in E. discriminate.
Qed.

Lemma fold_bump_invariant (col : list label) (acc : list (label * nat)) :
  NoDup (map fst acc) ->
  NoDup (map fst (fold_left (fun s l => bump l s) col acc)) /\
  forall k,
    lookup (fold_left (fun s l => bump l s) col acc) k =
    match lookup acc k, count_label k col with
    | None, O => None
    | _, c => Some (get acc k 0 + c)%nat
    end.
Proof.
  revert acc; induction col as [|l col IH]; intros acc Hd; cbn [fold_left].
  - split; [exact Hd|]. intros k. unfold count_label, get; cbn.
    destruct (lookup acc k); [f_equal; lia | reflexivity].
  - destruct (IH (bump l acc) (proj1 (keys_bump l acc Hd))) as [H1 H2].
    split; [exact H1|]. intros k. rewrite H2, get_bump, lookup_bump.
    unfold count_label, get; cbn [filter].
    destruct (label_eqb k l); cbn [List.length];
      destruct (lookup acc k);
      destruct (List.length (filter (label_eqb k) col));
      try reflexivity; f_equal; lia.
Qed.

Lemma lookup_perm (s s' : list (label * nat)) (k : label) :
  NoDup (map fst s) -> Permutation s s' -> lookup s k = lookup s' k.
Proof.
  intros Hd Hp.
  assert (NoDup (map fst s')) as Hd'
    by (apply (Permutation_NoDup (l := map fst s)); [now apply Permutation_map | exact Hd]).
  destruct (lookup s k) as [n|] eqn:E.
  - symmetry. apply (lookup_in _ _ _ Hd'), (Permutation_in _ Hp).
    now apply (lookup_in _ _ _ Hd).
  - destruct (lookup s' k) as [n|] eqn:E'; [|reflexivity].
    apply (lookup_in _ _ _ Hd'), (Permutation_in _ (Permutation_sym Hp)) in E'.
    apply (lookup_in _ _ _ Hd) in E'. congruence.
Qed.

Lemma count_labels_NoDup (col : list label) : NoDup (map fst (count_labels col)).
Proof. exact (proj1 (fold_bump_invariant col [] (NoDup_nil _))). Qed.

Lemma lookup_value_counts (col : list label) (k : label) :
  lookup (value_counts col) k = lookup (count_labels col) k.
Proof.
  unfold value_counts. symmetry.
  apply lookup_perm; [apply count_labels_NoDup | apply Permutation_sym, sort_desc_perm].
Qed.

Lemma get_value_counts (col : list label) (k : label) :
  get (value_counts col) k 0 = count_label k col.
Proof.
  unfold get. rewrite lookup_value_counts.
  change (get (count_labels col) k 0 = count_label k col).
  unfold count_labels. now rewrite get_fold_bump.
Qed.

Lemma count_label_total (col : list label) :
  (count_label Positive col + count_label Neutral col
   + count_label Negative col = List.length col)%nat.
Proof.
  unfold count_label.
  induction col as [|l col IH]; [reflexivity|].
  destruct l; cbn [filter label_eqb List.length]; lia.
Qed.

Lemma counts_sum_to_total (df : list Annotated.t) :
  (get (sentiment_counts df) Positive 0 + get (sentiment_counts df) Neutral 0
   + get (sentiment_counts df) Negative 0 = total_reviews df)%nat.
Proof.
  unfold sentiment_counts, total_reviews, sentiment_column.
  rewrite !get_value_counts, count_label_total. apply length_map.
Qed.

Lemma truediv_ok (count total : nat) :
  total <> 0%nat ->
  truediv count total =
  Ok (inject_Z (Z.of_nat count) / inject_Z (Z.of_nat total)).
Proof.
  intros H. unfold truediv.
  destruct (Nat.eqb_spec total 0); [contradiction | reflexivity].
Qed.

Lemma breakdown_line_ok (df : list Annotated.t) (l : label) :
  df <> [] ->
  breakdown_line df l =
  Ok (get (sentiment_counts df) l 0,
      inject_Z (Z.of_nat (get (sentiment_counts df) l 0))
      / inject_Z (Z.of_nat (total_reviews df)) * 100).
Proof.
  intros H. unfold breakdown_line.
  rewrite truediv_ok; [reflexivity|].
  unfold total_reviews. now destruct df.
Qed.

Lemma sentiment_breakdown_ok (df : list Annotated.t) :
  df <> [] ->
  exists p u n : Q,
    sentiment_breakdown df =
    Ok ((get (sentiment_counts df) Positive 0, p),
        (get (sentiment_counts df) Neutral 0, u),
        (get (sentiment_counts df) Negative 0, n)) /\
    p + u + n == 100.
Proof.
  intros H. unfold sentiment_breakdown.
  rewrite !breakdown_line_ok by assumption. cbn [bind].
  do 3 eexists. split; [reflexivity|].
  assert (Ht := counts_sum_to_total df).
  assert (~ inject_Z (Z.of_nat (total_reviews df)) == 0) as Hnz.
  { unfold total_reviews. destruct df; [contradiction|].
    unfold Qeq; cbn. lia. }
  rewrite <- Ht in Hnz. rewrite <- Ht.
  rewrite !Nat2Z.inj_add, !inject_Z_plus in Hnz.
  rewrite !Nat2Z.inj_add, !inject_Z_plus.
  field. exact Hnz.
Qed.

(** C7: the counts of the three labels sum to the number of rows, and on a
    non-empty frame the three percentages of the breakdown sum to [100]
    (exactly, in rational arithmetic). *)
Theorem label_counts_and_percentages_total :
  forall df : list Annotated.t,
    (get (sentiment_counts df) Positive 0 + get (sentiment_counts df) Neutral 0
     + get (sentiment_counts df) Negative 0 = List.length df)%nat /\
    (df <> [] ->
     exists p u n : Q,
       sentiment_breakdown df =
       Ok ((get (sentiment_counts df) Positive 0, p),
           (get (sentiment_counts df) Neutral 0, u),
           (get (sentiment_counts df) Negative 0, n)) /\
       p + u + n == 100).
Proof.
  intros df. split.
  - apply counts_sum_to_total.
  - apply sentiment_breakdown_ok.
Qed.

Lemma label_counts_and_percentages_total_witness :
  exists p u n : Q,
    sentiment_breakdown sample_frame = Ok ((2%nat, p), (1%nat, u), (1%nat, n)) /\
    p + u + n == 100.
Proof.
  refine (proj2 (label_counts_and_percentages_total sample_frame) _).
  discriminate.
Defined.

(** ** Empty frame *)

Lemma mean_nil : mean [] = NaN.
Proof. reflexivity. Qed.

(** C4, as the code has it: on the empty frame every label count is [0], the
    mean-based metrics are NaN without an error, each percentage of the
    breakdown raises ZeroDivisionError and the extremal categories raise
    ValueError; on a non-empty frame the breakdown is defined. *)
Theorem aggregations_on_empty_frame :
  forall (l : label) (df : list Annotated.t),
    get (sentiment_counts []) l 0 = 0%nat /\
    positive_pct [] = NaN /\
    avg_rating [] = NaN /\
    avg_sentiment [] = NaN /\
    breakdown_line [] l = Raise ZeroDivisionError /\
    sentiment_breakdown [] = Raise ZeroDivisionError /\
    extremal_categories [] = Raise ValueError /\
    (df <> [] -> exists v, sentiment_breakdown df = Ok v).
Proof.
  intros l df. repeat split.
  intros H. destruct (sentiment_breakdown_ok df H) as [p [u [n [E _]]]].
  eexists; exact E.
Qed.

Lemma aggregations_on_empty_frame_witness :
  exists v, sentiment_breakdown sample_frame = Ok v.
Proof.
  refine (proj2 (proj2 (proj2 (proj2 (proj2 (proj2 (proj2
    (aggregations_on_empty_frame Positive sample_frame))))))) _).
  discriminate.
Defined.

(** The breakdown of the empty frame divides zero by zero. *)
Lemma breakdown_of_empty_frame_raises :
  sentiment_breakdown [] = Raise (Exn "ZeroDivisionError") /\
  ~ (forall df : list Annotated.t, exists v, sentiment_breakdown df = Ok v).
Proof.
  split; [reflexivity|].
  intros H. destruct (H []) as [v Hv]. discriminate Hv.
Qed.

(** ** Grouping by category *)

Section AssocFacts.
Context {V : Type}.

Lemma compare_lt_neq (k k' : string) : String.compare k k' = Lt -> k' <> k.
Proof.
  intros H ->.
  assert (String.compare k k = Eq) as E
    by exact (proj2 (OrderedTypeEx.String_as_OT.cmp_eq k k) eq_refl).
  congruence.
Qed.

Lemma compare_lt_trans (a b c : string) :
  String.compare a b = Lt -> String.compare b c = Lt -> String.compare a c = Lt.
Proof.
  intros H1 H2.
  apply (proj1 (OrderedTypeEx.String_as_OT.cmp_lt a b)) in H1.
  apply (proj1 (OrderedTypeEx.String_as_OT.cmp_lt b c)) in H2.
  exact (proj2 (OrderedTypeEx.String_as_OT.cmp_lt a c)
           (OrderedTypeEx.String_as_OT.lt_trans a b c H1 H2)).
Qed.

Lemma compare_gt_lt (a b : string) :
  String.compare a b = Gt -> String.compare b a = Lt.
Proof.
  intros H. rewrite String.compare_antisym, H. reflexivity.
Qed.

Lemma keys_above_assoc (k : string) (g : list (string * V)) :
  keys_above k g -> assoc k g = None.
Proof.
  induction 1 as [|[k' v] g Hk _ IH]; cbn [assoc]; [reflexivity|].
  cbn in Hk. apply compare_lt_neq in Hk.
  apply String.eqb_neq in Hk. now rewrite Hk.
Qed.

Lemma keys_above_lower (k k' : string) (g : list (string * V)) :
  String.compare k k' = Lt -> keys_above k' g -> keys_above k g.
Proof.
  intros Hk H. unfold keys_above in *.
  eapply Forall_impl; [|exact H].
  intros e He. cbn in He. now apply (compare_lt_trans k k').
Qed.

Lemma assoc_In (k : string) (v : V) (g : list (string * V)) :
  assoc k g = Some v -> In (k, v) g.
Proof.
  induction g as [|[k' v'] g IH]; cbn [assoc]; [discriminate|].
  destruct (String.eqb_spec k' k) as [-> | Hne].
  - intros [= ->]. now left.
  - intros H. right. now apply IH.
Qed.

Lemma In_assoc (k : string) (v : V) (g : list (string * V)) :
  sorted_keys g -> In (k, v) g -> assoc k g = Some v.
Proof.
  induction 1 as [|k' v' g Hk Hs IH]; [contradiction|].
  intros [[= -> ->] | Hin]; cbn [assoc].
  - now rewrite String.eqb_refl.
  - destruct (String.eqb_spec k' k) as [-> | Hne]; [|now apply IH].
    apply IH in Hin. rewrite (keys_above_assoc _ _ Hk) in Hin. discriminate.
Qed.
End AssocFacts.

Lemma group_insert_above (k0 k : string) (v : float64)
  (g : list (string * list float64)) :
  String.compare k0 k = Lt -> keys_above k0 g ->
  keys_above k0 (group_insert k v g).
Proof.
  intros Hk H. induction H as [|[k' vs] g Hk' Hg IH]; cbn [group_insert].
  - now repeat constructor.
  - destruct (String.compare k k') eqn:E.
    + constructor; assumption.
    + constructor; [exact Hk | constructor; assumption].
    + constructor; assumption.
Qed.

Lemma group_insert_sorted (k : string) (v : float64)
  (g : list (string * list float64)) :
  sorted_keys g -> sorted_keys (group_insert k v g).
Proof.
  induction 1 as [|k' vs g Hk Hs IH]; cbn [group_insert].
  - repeat constructor.
  - destruct (String.compare k k') eqn:E.
    + constructor; assumption.
    + constructor; [|now constructor].
      constructor; [exact E | now apply (keys_above_lower k k')].
    + constructor; [|exact IH].
      apply group_insert_above; [now apply compare_gt_lt | exact Hk].
Qed.

Lemma assoc_group_insert (k k' : string) (v : float64)
  (g : list (string * list float64)) :
  sorted_keys g ->
  assoc k' (group_insert k v g) =
  if String.eqb k k' then Some (v :: values_of k g) else assoc k' g.
Proof.
  unfold values_of.
  induction 1 as [|k1 vs g Hk Hs IH]; cbn [group_insert assoc].
  - reflexivity.
  - destruct (String.compare k k1) eqn:E; cbn [assoc].
    + apply (proj1 (OrderedTypeEx.String_as_OT.cmp_eq k k1)) in E. subst k1.
      rewrite String.eqb_refl. now destruct (String.eqb k k').
    + destruct (String.eqb_spec k k') as [<- | Hne]; [|reflexivity].
      assert (k1 <> k) as Hne by now apply compare_lt_neq.
      apply String.eqb_neq in Hne. rewrite Hne.
      now rewrite (keys_above_assoc k g (keys_above_lower k k1 g E Hk)).
    + assert (k <> k1) as Hne by (apply compare_lt_neq; now apply compare_gt_lt).
      destruct (String.eqb_spec k1 k') as [<- | Hne1].
      * apply String.eqb_neq in Hne. rewrite Hne.
        reflexivity.
      * rewrite IH.
        destruct (String.eqb_spec k k') as [<- | Hne2]; [|reflexivity].
        assert (String.eqb k1 k = false) as -> by (apply String.eqb_neq; congruence).
        reflexivity.
Qed.

Lemma group_insert_not_nil (k : string) (v : float64)
  (g : list (string * list float64)) : group_insert k v g <> [].
Proof.
  destruct g as [|[k' vs] g]; cbn [group_insert]; [discriminate|].
  destruct (String.compare k k'); discriminate.
Qed.

Lemma groupby_score_sorted (df : list Annotated.t) :
  sorted_keys (groupby_score df).
Proof.
  induction df as [|a df IH]; cbn [groupby_score]; [constructor|].
  destruct (top_category a); [now apply group_insert_sorted | exact IH].
Qed.

Lemma assoc_groupby_score (df : list Annotated.t) (k : string) :
  assoc k (groupby_score df) =
  match category_scores df k with
  | [] => None
  | vs => Some vs
  end.
Proof.
  unfold category_scores.
  induction df as [|a df IH]; cbn [groupby_score filter]; [reflexivity|].
  unfold in_category at 1.
  destruct (top_category a) as [ka|]; [|exact IH].
  rewrite assoc_group_insert by apply groupby_score_sorted.
  destruct (String.eqb_spec ka k) as [-> | Hne]; [|exact IH].
  cbn [map]. unfold values_of. rewrite IH.
  now destruct (map _ _).
Qed.

Lemma category_scores_nonempty (df : list Annotated.t) (k : string) :
  category_scores df k <> [] <-> has_category df k.
Proof.
  unfold category_scores, has_category. split.
  - intros H.
    destruct (filter (in_category k) df) as [|a l] eqn:E; [now contradiction H|].
    assert (In a (filter (in_category k) df)) as Hin by (rewrite E; now left).
    apply filter_In in Hin as [Hin Hc]. exists a. split; [exact Hin|].
    unfold in_category in Hc. destruct (top_category a) as [k'|]; [|discriminate].
    apply String.eqb_eq in Hc. now subst.
  - intros [a [Hin Hk]] E.
    assert (In a (filter (in_category k) df)) as Hf.
    { apply filter_In. split; [exact Hin|].
      unfold in_category. rewrite Hk. apply String.eqb_refl. }
    destruct (filter (in_category k) df); [contradiction | discriminate].
Qed.

Lemma groupby_score_nil (df : list Annotated.t) :
  groupby_score df = [] <-> no_category df.
Proof.
  unfold no_category.
  induction df as [|a df IH]; cbn [groupby_score].
  - split; [intros _ a [] | reflexivity].
  - destruct (top_category a) as [k|] eqn:E.
    + split.
      * intros H. now apply group_insert_not_nil in H.
      * intros H. specialize (H a (or_introl eq_refl)). congruence.
    + rewrite IH. split.
      * intros H b [<- | Hb]; [exact E | now apply H].
      * intros H b Hb. apply H. now right.
Qed.

Lemma assoc_cat_sentiment_avg (df : list Annotated.t) (k : string) :
  assoc k (cat_sentiment_avg df) =
  match category_scores df k with
  | [] => None
  | _ => Some (category_mean df k)
  end.
Proof.
  unfold cat_sentiment_avg, category_mean.
  assert (forall g : list (string * list float64),
            assoc k (map (fun e => (fst e, mean (snd e))) g) =
            option_map mean (assoc k g)) as Hmap.
  { induction g as [|[k' vs] g IH]; cbn [map assoc fst snd]; [reflexivity|].
    now destruct (String.eqb k' k). }
  rewrite Hmap, assoc_groupby_score.
  now destruct (category_scores df k).
Qed.

Lemma cat_sentiment_avg_sorted (df : list Annotated.t) :
  sorted_keys (cat_sentiment_avg df).
Proof.
  unfold cat_sentiment_avg.
  induction (groupby_score_sorted df) as [|k vs g Hk Hs IH]; cbn [map fst snd].
  - constructor.
  - constructor; [|exact IH].
    unfold keys_above in *. rewrite Forall_map. exact Hk.
Qed.

Lemma In_cat_sentiment_avg (df : list Annotated.t) (k : string) (m : float64) :
  In (k, m) (cat_sentiment_avg df) <->
  has_category df k /\ m = category_mean df k.
Proof.
  rewrite <- category_scores_nonempty. split.
  - intros H. apply (In_assoc _ _ _ (cat_sentiment_avg_sorted df)) in H.
    rewrite assoc_cat_sentiment_avg in H.
    destruct (category_scores df k); [discriminate|].
    split; [discriminate | congruence].
  - intros [Hne ->]. apply assoc_In. rewrite assoc_cat_sentiment_avg.
    now destruct (category_scores df k).
Qed.

Lemma mean_num_nonempty (xs : list float64) (m : Q) :
  mean xs = Num m -> xs <> [].
Proof. intros H ->. discriminate H. Qed.

(** ** The first best entry *)

Section ArgBest.
Variable better : Q -> Q -> bool.
Hypothesis better_asym : forall a b, better a b = true -> better b a = false.
Hypothesis better_trans :
  forall a b c, better a b = false -> better b c = false -> better a c = false.

Lemma better_irrefl (a : Q) : better a a = false.
Proof.
  destruct (better a a) eqn:E; [|reflexivity].
  rewrite (better_asym a a E) in E. discriminate.
Qed.

Lemma arg_best_spec (s : list (string * float64)) :
  forall (best : option (string * Q)) (k : string) (q : Q),
    arg_best better s best = Some (k, q) ->
    (best = Some (k, q) \/ In (k, Num q) s) /\
    (forall k' q', In (k', Num q') s -> better q' q = false) /\
    (forall kb b, best = Some (kb, b) -> better b q = false).
Proof.
  induction s as [|[k1 [|q1]] s IH]; intros best k q H; cbn [arg_best] in H.
  - subst best. repeat split.
    + now left.
    + intros k' q' [].
    + intros kb b [= _ ->]. apply better_irrefl.
  - destruct (IH _ _ _ H) as [H1 [H2 H3]]. repeat split.
    + destruct H1; [now left | right; now right].
    + intros k' q' [[=] | Hin]. now apply (H2 k').
    + exact H3.
  - destruct best as [[kb b]|].
    + destruct (better q1 b) eqn:E.
      * destruct (IH _ _ _ H) as [H1 [H2 H3]]. repeat split.
        -- right. destruct H1 as [[= -> ->] | H1]; [now left | now right].
        -- intros k' q' [[= _ <-] | Hin]; [now apply (H3 k1) | now apply (H2 k')].
        -- intros kb' b' [= _ <-].
           apply (better_trans b q1 q); [now apply better_asym | now apply (H3 k1)].
      * destruct (IH _ _ _ H) as [H1 [H2 H3]]. repeat split.
        -- destruct H1; [now left | right; now right].
        -- intros k' q' [[= _ <-] | Hin]; [|now apply (H2 k')].
           apply (better_trans q1 b q); [exact E | now apply (H3 kb)].
        -- exact H3.
    + destruct (IH _ _ _ H) as [H1 [H2 H3]]. repeat split.
      * right. destruct H1 as [[= -> ->] | H1]; [now left | now right].
      * intros k' q' [[= _ <-] | Hin]; [now apply (H3 k1) | now apply (H2 k')].
      * intros kb b [=].
Qed.

Lemma arg_best_some (s : list (string * float64)) :
  forall e : string * Q, arg_best better s (Some e) <> None.
Proof.
  induction s as [|[k1 [|q1]] s IH]; intros [kb b]; cbn [arg_best].
  - discriminate.
  - apply IH.
  - destruct (better q1 b); apply IH.
Qed.

Lemma arg_best_none (s : list (string * float64)) :
  arg_best better s None = None <-> (forall k x, In (k, x) s -> x = NaN).
Proof.
  induction s as [|[k1 [|q1]] s IH]; cbn [arg_best].
  - split; [intros _ k x [] | reflexivity].
  - rewrite IH. split.
    + intros H k x [[= _ <-] | Hin]; [reflexivity | now apply (H k)].
    + intros H k x Hin. apply (H k). now right.
  - split.
    + intros H. now apply arg_best_some in H.
    + intros H. specialize (H k1 (Num q1) (or_introl eq_refl)). discriminate.
Qed.
End ArgBest.

Lemma Qlt_bool_true (a b : Q) : Qlt_bool a b = true <-> a < b.
Proof.
  unfold Qlt_bool. rewrite negb_true_iff, <- not_true_iff_false, Qle_bool_iff.
  split; [apply Qnot_le_lt | apply Qlt_not_le].
Qed.

Lemma Qlt_bool_false (a b : Q) : Qlt_bool a b = false <-> b <= a.
Proof. unfold Qlt_bool. now rewrite negb_false_iff, Qle_bool_iff. Qed.

Lemma above_asym (a b : Q) :
  Qlt_bool b a = true -> Qlt_bool a b = false.
Proof. rewrite Qlt_bool_true, Qlt_bool_false. apply Qlt_le_weak. Qed.

Lemma above_trans (a b c : Q) :
  Qlt_bool b a = false -> Qlt_bool c b = false -> Qlt_bool c a = false.
Proof. rewrite !Qlt_bool_false. intros H1 H2. now apply (Qle_trans a b c). Qed.

Lemma below_trans (a b c : Q) :
  Qlt_bool a b = false -> Qlt_bool b c = false -> Qlt_bool a c = false.
Proof. rewrite !Qlt_bool_false. intros H1 H2. now apply (Qle_trans c b a). Qed.

Lemma idxmax_spec (s : list (string * float64)) (r : option string) :
  idxmax s = Ok r ->
  (forall k, r = Some k ->
     exists m, In (k, Num m) s /\ forall k' m', In (k', Num m') s -> m' <= m) /\
  (r = None <-> forall k x, In (k, x) s -> x = NaN).
Proof.
  unfold idxmax. destruct s as [|e s]; [discriminate|].
  set (l := e :: s). intros H.
  assert (r = option_map fst (arg_best (fun q b => Qlt_bool b q) l None)) as ->
    by congruence.
  clear H.
  destruct (arg_best (fun q b => Qlt_bool b q) l None) as [[k m]|] eqn:E;
    cbn [option_map fst].
  - destruct (arg_best_spec (fun q b => Qlt_bool b q)
                above_asym above_trans l None k m E) as [H1 [H2 _]].
    split.
    + intros k0 Hk0. assert (k0 = k) as -> by congruence. exists m. split.
      * now destruct H1.
      * intros k' m' Hin. apply Qlt_bool_false. now apply (H2 k').
    + split; [discriminate|]. intros H.
      apply (arg_best_none (fun q b => Qlt_bool b q)) in H. congruence.
  - split; [discriminate|]. split; [|reflexivity].
    intros _. now apply (arg_best_none (fun q b => Qlt_bool b q)).
Qed.

Lemma idxmin_spec (s : list (string * float64)) (r : option string) :
  idxmin s = Ok r ->
  (forall k, r = Some k ->
     exists m, In (k, Num m) s /\ forall k' m', In (k', Num m') s -> m <= m') /\
  (r = None <-> forall k x, In (k, x) s -> x = NaN).
Proof.
  unfold idxmin. destruct s as [|e s]; [discriminate|].
  set (l := e :: s). intros H.
  assert (r = option_map fst (arg_best (fun q b => Qlt_bool q b) l None)) as ->
    by congruence.
  clear H.
  destruct (arg_best (fun q b => Qlt_bool q b) l None) as [[k m]|] eqn:E;
    cbn [option_map fst].
  - destruct (arg_best_spec (fun q b => Qlt_bool q b)
                (fun a b => above_asym b a) below_trans l None k m E)
      as [H1 [H2 _]].
    split.
    + intros k0 Hk0. assert (k0 = k) as -> by congruence. exists m. split.
      * now destruct H1.
      * intros k' m' Hin. apply Qlt_bool_false. now apply (H2 k').
    + split; [discriminate|]. intros H.
      apply (arg_best_none (fun q b => Qlt_bool q b)) in H. congruence.
  - split; [discriminate|]. split; [|reflexivity].
    intros _. now apply (arg_best_none (fun q b => Qlt_bool q b)).
Qed.

(** ** Extremal categories *)

Lemma cat_sentiment_avg_nil (df : list Annotated.t) :
  cat_sentiment_avg df = [] <-> no_category df.
Proof.
  rewrite <- groupby_score_nil. unfold cat_sentiment_avg.
  destruct (groupby_score df); cbn [map]; split; congruence.
Qed.

Lemma top_category_none (a : Annotated.t) :
  top_category a = None <-> Review.category (Annotated.review a) = None.
Proof.
  unfold top_category. destruct (Review.category (Annotated.review a));
    cbn; split; congruence.
Qed.

Lemma category_accessor_ok (df : list Annotated.t) :
  ~ no_category df ->
  str_accessor (map (fun a => Review.category (Annotated.review a)) df) =
  Ok (map (fun a => Review.category (Annotated.review a)) df).
Proof.
  intros H. destruct (str_accessor_cases
                        (map (fun a => Review.category (Annotated.review a)) df))
    as [[E _] | [_ [_ Hall]]]; [exact E|].
  contradiction H. intros a Ha. apply top_category_none, Hall.
  apply in_map_iff. now exists a.
Qed.

Lemma extremal_categories_no_category (df : list Annotated.t) :
  df <> [] -> no_category df -> extremal_categories df = Raise AttributeError.
Proof.
  intros Hne Hno. unfold extremal_categories.
  rewrite str_accessor_raises; [reflexivity | now destruct df |].
  intros c Hc. apply in_map_iff in Hc as [a [<- Ha]].
  now apply top_category_none, Hno.
Qed.

Lemma extremal_categories_raises (df : list Annotated.t) :
  cat_sentiment_avg df = [] ->
  (df = [] /\ extremal_categories df = Raise ValueError) \/
  (df <> [] /\ extremal_categories df = Raise AttributeError).
Proof.
  intros H. apply cat_sentiment_avg_nil in H.
  destruct df as [|a df]; [left; now split | right].
  split; [discriminate|]. now apply extremal_categories_no_category.
Qed.

Lemma extremal_categories_cons (df : list Annotated.t) :
  cat_sentiment_avg df <> [] ->
  exists hi lo,
    idxmax (cat_sentiment_avg df) = Ok hi /\
    idxmin (cat_sentiment_avg df) = Ok lo /\
    extremal_categories df = Ok (hi, lo).
Proof.
  intros H. unfold extremal_categories.
  rewrite category_accessor_ok by now rewrite <- cat_sentiment_avg_nil.
  cbn [bind].
  destruct (cat_sentiment_avg df) as [|e s] eqn:E; [contradiction|].
  do 2 eexists. repeat split.
Qed.

Lemma all_nan_means (df : list Annotated.t) :
  (forall k x, In (k, x) (cat_sentiment_avg df) -> x = NaN) <->
  (forall k, has_category df k -> category_mean df k = NaN).
Proof.
  split.
  - intros H k Hk. apply (H k). now apply In_cat_sentiment_avg.
  - intros H k x Hin. apply In_cat_sentiment_avg in Hin as [Hk ->]. now apply H.
Qed.

Lemma mean_in_avg (df : list Annotated.t) (k : string) (m : Q) :
  category_mean df k = Num m -> In (k, Num m) (cat_sentiment_avg df).
Proof.
  intros H. apply In_cat_sentiment_avg. split; [|now symmetry].
  apply category_scores_nonempty. exact (mean_num_nonempty _ _ H).
Qed.

Lemma no_numeric_mean (df : list Annotated.t) :
  no_category df -> forall k m, category_mean df k <> Num m.
Proof.
  intros Hno k m H. apply mean_in_avg in H.
  apply cat_sentiment_avg_nil in Hno. rewrite Hno in H. destruct H.
Qed.

(** C9, as the code has it: whenever some category has a mean score, the
    most positive category is a top-level category whose mean score is the
    highest and the most critical one a category whose mean score is the
    lowest.  The operation raises ValueError, from [idxmax] on an empty
    series, on the empty frame, and AttributeError, from the [.str]
    accessor, exactly on a non-empty frame without any category; it raises
    nothing else, and never when some category has a mean score. *)
Theorem extremal_categories_by_mean :
  forall df : list Annotated.t,
    (df = [] -> extremal_categories df = Raise ValueError) /\
    (extremal_categories df = Raise AttributeError <->
       df <> [] /\ no_category df) /\
    (forall e, extremal_categories df = Raise e ->
       (e = ValueError \/ e = AttributeError) /\
       forall k m, category_mean df k <> Num m) /\
    ((exists k m, category_mean df k = Num m) ->
       exists hi lo, extremal_categories df = Ok (Some hi, Some lo)) /\
    (forall hi lo, extremal_categories df = Ok (hi, lo) ->
       (forall k, hi = Some k ->
          has_category df k /\
          exists m, category_mean df k = Num m /\
                    forall k' m', category_mean df k' = Num m' -> m' <= m) /\
       (forall k, lo = Some k ->
          has_category df k /\
          exists m, category_mean df k = Num m /\
                    forall k' m', category_mean df k' = Num m' -> m <= m') /\
       (hi = None <-> forall k, has_category df k -> category_mean df k = NaN) /\
       (lo = None <-> forall k, has_category df k -> category_mean df k = NaN)).
Proof.
  intros df.
  destruct (cat_sentiment_avg df) as [|e s] eqn:E.
  - assert (no_category df) as Hno by now apply cat_sentiment_avg_nil.
    destruct (extremal_categories_raises df E) as [[-> Hx] | [Hne Hx]];
      rewrite Hx.
    + split; [reflexivity|].
      split; [split; [discriminate | intros [H _]; now contradiction H]|].
      split; [intros e0 [= <-]; split; [now left | now apply no_numeric_mean]|].
      split; [intros [k [m H]]; now destruct (no_numeric_mean [] Hno k m)|].
      intros hi lo H. discriminate H.
    + split; [intros ->; now contradiction Hne|].
      split; [split; [now intros _ | reflexivity]|].
      split; [intros e0 [= <-]; split; [now right | now apply no_numeric_mean]|].
      split; [intros [k [m H]]; now destruct (no_numeric_mean df Hno k m)|].
      intros hi lo H. discriminate H.
  - assert (cat_sentiment_avg df <> []) as Hne by congruence.
    assert (~ no_category df) as Hno by now rewrite <- cat_sentiment_avg_nil.
    destruct (extremal_categories_cons df Hne) as [hi [lo [Hmax [Hmin Hx]]]].
    rewrite Hx. clear E e s.
    destruct (idxmax_spec _ _ Hmax) as [Hhi Hhn].
    destruct (idxmin_spec _ _ Hmin) as [Hlo Hln].
    split; [intros ->; contradiction Hno; intros a []|].
    split; [split; [discriminate | intros [_ H]; contradiction]|].
    split; [discriminate|].
    split.
    { intros [k [m Hm]]. apply mean_in_avg in Hm.
      destruct hi as [h|]; [|specialize (proj1 Hhn eq_refl k (Num m) Hm); discriminate].
      destruct lo as [l|]; [|specialize (proj1 Hln eq_refl k (Num m) Hm); discriminate].
      now exists h, l. }
    intros hi' lo' [= <- <-].
    rewrite all_nan_means in Hhn, Hln.
    split; [|split; [|split; assumption]].
    + intros k Hk. destruct (Hhi k Hk) as [m [Hin Hall]].
      apply In_cat_sentiment_avg in Hin as [Hc Hm].
      split; [exact Hc|]. exists m. split; [now symmetry|].
      intros k' m' Hm'. apply (Hall k'). now apply mean_in_avg.
    + intros k Hk. destruct (Hlo k Hk) as [m [Hin Hall]].
      apply In_cat_sentiment_avg in Hin as [Hc Hm].
      split; [exact Hc|]. exists m. split; [now symmetry|].
      intros k' m' Hm'. apply (Hall k'). now apply mean_in_avg.
Qed.

Lemma extremal_categories_by_mean_witness :
  extremal_categories sample_frame = Ok (Some "B", Some "A") /\
  has_category sample_frame "B" /\ has_category sample_frame "A" /\
  extremal_categories [annotate (review_of (Num 5) (Some "great"))] =
    Raise AttributeError.
Proof.
  assert (extremal_categories sample_frame = Ok (Some "B", Some "A")) as E
    by reflexivity.
  split; [exact E|].
  destruct (proj2 (proj2 (proj2 (proj2 (extremal_categories_by_mean sample_frame))))
              _ _ E) as [Hhi [Hlo _]].
  split; [exact (proj1 (Hhi "B" eq_refl))|].
  split; [exact (proj1 (Hlo "A" eq_refl))|].
  apply (proj1 (proj2 (extremal_categories_by_mean
                         [annotate (review_of (Num 5) (Some "great"))]))).
  split; [discriminate|]. intros a [<- | []]. reflexivity.
Defined.

(** With no category at all the failure is a ValueError on the empty frame
    and an AttributeError on a frame with rows; no exception named
    EmptyInputError is raised. *)
Lemma extremal_categories_raise_value_error :
  no_category [] /\
  extremal_categories [] = Raise (Exn "ValueError") /\
  extremal_categories [] <> Raise (Exn "EmptyInputError") /\
  no_category [annotate (review_of (Num 5) (Some "great"))] /\
  extremal_categories [annotate (review_of (Num 5) (Some "great"))] =
    Raise (Exn "AttributeError") /\
  ~ (forall df : list Annotated.t,
       no_category df -> extremal_categories df = Raise (Exn "EmptyInputError")).
Proof.
  assert (no_category []) as H0 by (intros a []).
  split; [exact H0|]. split; [reflexivity|]. split; [discriminate|].
  split; [intros a [<- | []]; reflexivity|]. split; [reflexivity|].
  intros H. specialize (H [] H0). discriminate H.
Qed.

(** * Further properties of the classifier *)

(** ** Ratings that decide the label alone *)

Lemma Qle_4_2_absurd (q : Q) : 4 <= q -> q <= 2 -> False.
Proof. intros H4 H2. lra. Qed.

(** A rating of at most 2 gives the label Negative whatever the text says,
    with the score [-(5 - q) / 5], which is below zero. *)
Theorem low_rating_is_negative :
  forall (row : Review.t) (q : Q),
    Review.rating_numeric row = Num q -> q <= 2 ->
    Annotated.sentiment (annotate row) = Negative /\
    holds (Annotated.sentiment_score (annotate row)) (- (5 - q) / 5) /\
    negative (Annotated.sentiment_score (annotate row)).
Proof.
  intros row q Hr H2. rewrite annotate_sentiment, annotate_score.
  assert (analyze_sentiment row = Negative) as E.
  { destruct (analyze_sentiment_cases row) as [[Hp _] | [[_ [_ E]] | [_ [Hn _]]]].
    - destruct Hp as [Hp _]. rewrite Hr in Hp. cbn in Hp.
      now destruct (Qle_4_2_absurd q).
    - exact E.
    - contradiction Hn. left. now rewrite Hr. }
  rewrite E, Hr, score_negative_num. cbn [holds negative].
  split; [reflexivity|]. split; [apply negative_formula|].
  assert ((5 - q) / 5 * -1 == (q - 5) * (1 # 5)) as -> by field. lra.
Qed.

Lemma low_rating_is_negative_witness :
  Annotated.sentiment
    (annotate (review_of (Num 2) (Some "great, love it, the best"))) = Negative.
Proof.
  refine (proj1 (low_rating_is_negative
                   (review_of (Num 2) (Some "great, love it, the best")) 2
                   eq_refl _)).
  unfold Qle; simpl; lia.
Defined.

(** ** Texts that do not tip the balance *)

Lemma tie_label (row : Review.t) :
  pos_count row = neg_count row ->
  (at_most 2 (Review.rating_numeric row) -> analyze_sentiment row = Negative) /\
  (~ at_most 2 (Review.rating_numeric row) -> analyze_sentiment row = Neutral).
Proof.
  intros Ht.
  assert (~ positive_rule row) as Hp by (unfold positive_rule; lia).
  assert (negative_rule row <-> at_most 2 (Review.rating_numeric row)) as Hn
    by (unfold negative_rule; split; [intros [H | H]; [exact H | lia] | now left]).
  destruct (analyze_sentiment_cases row) as [[Hp' _] | [[_ [Hn' E]] | [_ [Hn' E]]]];
    [contradiction | |]; rewrite E; rewrite Hn in Hn'; split; intros H;
    try reflexivity; contradiction.
Qed.

(** When the text has as many positive as negative lexicon words (none at
    all, for instance) the label follows the rating alone and is never
    Positive: Negative for a rating of at most 2, Neutral with score [0]
    otherwise, five stars included. *)
Theorem balanced_text_is_never_positive :
  forall row : Review.t,
    pos_count row = neg_count row ->
    (at_most 2 (Review.rating_numeric row) ->
       Annotated.sentiment (annotate row) = Negative) /\
    (~ at_most 2 (Review.rating_numeric row) ->
       Annotated.sentiment (annotate row) = Neutral /\
       Annotated.sentiment_score (annotate row) = Num 0).
Proof.
  intros row Ht. rewrite annotate_sentiment, annotate_score.
  destruct (tie_label row Ht) as [H1 H2]. split; [exact H1|].
  intros H. now rewrite (H2 H).
Qed.

Lemma balanced_text_is_never_positive_witness :
  Annotated.sentiment (annotate (review_of (Num 5) (Some "arrived on time"))) = Neutral /\
  Annotated.sentiment_score (annotate (review_of (Num 5) (Some "arrived on time"))) = Num 0.
Proof.
  refine (proj2 (balanced_text_is_never_positive
                   (review_of (Num 5) (Some "arrived on time")) eq_refl) _).
  cbn. unfold Qle; simpl; lia.
Defined.

(** A missing text is read as the word ["nan"], which holds no lexicon
    word: both counts are [0], and the label is Negative for a rating of at
    most 2 and Neutral otherwise. *)
Theorem missing_text_label :
  forall row : Review.t,
    Review.review_content row = None ->
    content_of row = "nan" /\
    pos_count row = 0%nat /\ neg_count row = 0%nat /\
    (Annotated.sentiment (annotate row) = Negative <->
       at_most 2 (Review.rating_numeric row)) /\
    (Annotated.sentiment (annotate row) = Neutral <->
       ~ at_most 2 (Review.rating_numeric row)).
Proof.
  intros row Hc. rewrite annotate_sentiment.
  assert (content_of row = "nan") as Hn by (unfold content_of; now rewrite Hc).
  assert (pos_count row = 0%nat) as Hp by (unfold pos_count; now rewrite Hn).
  assert (neg_count row = 0%nat) as Hg by (unfold neg_count; now rewrite Hn).
  assert (pos_count row = neg_count row) as Ht by congruence.
  destruct (tie_label row Ht) as [H1 H2].
  split; [exact Hn|]. split; [exact Hp|]. split; [exact Hg|].
  destruct (fle (Review.rating_numeric row) 2) eqn:Ef.
  - apply fle_at_most in Ef. rewrite (H1 Ef).
    split; split; try discriminate; tauto.
  - assert (~ at_most 2 (Review.rating_numeric row)) as Hf
      by (rewrite <- fle_at_most, Ef; discriminate).
    rewrite (H2 Hf). split; split; try discriminate; tauto.
Qed.

Lemma missing_text_label_witness :
  pos_count (review_of (Num 5) None) = 0%nat /\
  neg_count (review_of (Num 5) None) = 0%nat.
Proof.
  destruct (missing_text_label (review_of (Num 5) None) eq_refl)
    as [_ [Hp [Hn _]]].
  split; assumption.
Defined.

(** ** Letter case *)

Lemma lower_ascii_idempotent (c : ascii) :
  lower_ascii (lower_ascii c) = lower_ascii c.
Proof. destruct c as [[] [] [] [] [] [] [] []]; reflexivity. Qed.

Lemma lower_upper_ascii (c : ascii) :
  lower_ascii (upper_ascii c) = lower_ascii c.
Proof. destruct c as [[] [] [] [] [] [] [] []]; reflexivity. Qed.

Lemma lower_idempotent (s : string) : lower (lower s) = lower s.
Proof.
  induction s as [|c s IH]; cbn [lower];
    [reflexivity | now rewrite lower_ascii_idempotent, IH].
Qed.

Lemma lower_upper (s : string) : lower (upper s) = lower s.
Proof.
  induction s as [|c s IH]; cbn [lower upper];
    [reflexivity | now rewrite lower_upper_ascii, IH].
Qed.

Lemma lower_length (s : string) : String.length (lower s) = String.length s.
Proof. induction s as [|c s IH]; cbn; [reflexivity | now rewrite IH]. Qed.

Lemma annotate_same_lower (row : Review.t) (t1 t2 : string) :
  lower t1 = lower t2 ->
  Annotated.sentiment (annotate (with_text row t1)) =
    Annotated.sentiment (annotate (with_text row t2)) /\
  Annotated.sentiment_score (annotate (with_text row t1)) =
    Annotated.sentiment_score (annotate (with_text row t2)).
Proof.
  intros H. rewrite !annotate_sentiment, !annotate_score.
  assert (analyze_sentiment (with_text row t1) = analyze_sentiment (with_text row t2))
    as E.
  { unfold analyze_sentiment, pos_count, neg_count, content_of.
    cbn [with_text Review.review_content Review.rating_numeric str].
    now rewrite H. }
  now rewrite E.
Qed.

Lemma lower_is_ascii (s : string) : is_ascii s = true -> is_ascii (lower s) = true.
Proof.
  induction s as [|c s IH]; cbn [is_ascii lower]; [reflexivity|].
  rewrite !andb_true_iff. intros [Hc Hs]. split; [|now apply IH].
  revert Hc. destruct c as [[] [] [] [] [] [] [] []]; vm_compute; congruence.
Qed.

Lemma upper_is_ascii (s : string) : is_ascii s = true -> is_ascii (upper s) = true.
Proof.
  induction s as [|c s IH]; cbn [is_ascii upper]; [reflexivity|].
  rewrite !andb_true_iff. intros [Hc Hs]. split; [|now apply IH].
  revert Hc. destruct c as [[] [] [] [] [] [] [] []]; vm_compute; congruence.
Qed.

Lemma upper_length (s : string) : String.length (upper s) = String.length s.
Proof. induction s as [|c s IH]; cbn; [reflexivity | now rewrite IH]. Qed.

(** On ASCII text the classifier ignores the case of the letters: writing
    the text in upper case, or in lower case, changes neither the label nor
    the score of a review, and lowering the text keeps it ASCII and of the
    same length. *)
Theorem classifier_ignores_letter_case :
  forall (row : Review.t) (text : string),
    is_ascii text = true ->
    (Annotated.sentiment (annotate (with_text row (upper text))) =
       Annotated.sentiment (annotate (with_text row text)) /\
     Annotated.sentiment_score (annotate (with_text row (upper text))) =
       Annotated.sentiment_score (annotate (with_text row text))) /\
    (Annotated.sentiment (annotate (with_text row (lower text))) =
       Annotated.sentiment (annotate (with_text row text)) /\
     Annotated.sentiment_score (annotate (with_text row (lower text))) =
       Annotated.sentiment_score (annotate (with_text row text))) /\
    is_ascii (lower text) = true /\
    String.length (lower text) = String.length text.
Proof.
  intros row text Ha. split; [|split; [|split]].
  - apply annotate_same_lower, lower_upper.
  - apply annotate_same_lower, lower_idempotent.
  - now apply lower_is_ascii.
  - apply lower_length.
Qed.

Lemma classifier_ignores_letter_case_witness :
  Annotated.sentiment (annotate (review_of (Num 5) (Some "GREAT PRODUCT"))) =
  Annotated.sentiment (annotate (review_of (Num 5) (Some "Great product"))).
Proof.
  exact (proj1 (proj1 (classifier_ignores_letter_case
                         (review_of (Num 5) (Some "")) "Great product" eq_refl))).
Defined.

(** ** Longer texts *)

Lemma append_assoc (a b c : string) : (a ++ b) ++ c = a ++ (b ++ c).
Proof. induction a as [|x a IH]; cbn; [reflexivity | now rewrite IH]. Qed.

Lemma lower_append (a b : string) : lower (a ++ b) = lower a ++ lower b.
Proof. induction a as [|x a IH]; cbn; [reflexivity | now rewrite IH]. Qed.

Lemma Substring_extend (w s pre post : string) :
  Substring w s -> Substring w (pre ++ s ++ post).
Proof.
  intros [a [b ->]]. exists (pre ++ a), (b ++ post).
  now rewrite !append_assoc.
Qed.

Lemma count_words_le (words : list string) (s s' : string) :
  (forall w, Substring w s -> Substring w s') ->
  (count_words words s <= count_words words s')%nat.
Proof.
  intros H. induction words as [|w ws IH]; cbn [count_words]; [lia|].
  destruct (contains w s) eqn:E.
  - apply contains_substring, H, contains_substring in E. rewrite E. lia.
  - destruct (contains w s'); lia.
Qed.

Lemma count_words_bound (words : list string) (s : string) :
  (count_words words s <= List.length words)%nat.
Proof.
  induction words as [|w ws IH]; cbn [count_words List.length]; [lia|].
  destruct (contains w s); lia.
Qed.

(** Text added before or after a review never removes a match: both counts
    of the longer text are at least those of the shorter one, and neither
    count exceeds the ten words of its lexicon. *)
Theorem counts_grow_with_text :
  forall (row : Review.t) (text before after : string),
    (pos_count (with_text row text) <=
       pos_count (with_text row (before ++ text ++ after)))%nat /\
    (neg_count (with_text row text) <=
       neg_count (with_text row (before ++ text ++ after)))%nat /\
    (pos_count row <= 10)%nat /\ (neg_count row <= 10)%nat.
Proof.
  intros row text before after.
  unfold pos_count, neg_count, content_of.
  cbn [with_text Review.review_content str].
  rewrite !lower_append.
  split; [|split; [|split]].
  - apply count_words_le. intros w. apply Substring_extend.
  - apply count_words_le. intros w. apply Substring_extend.
  - apply (count_words_bound positive_words).
  - apply (count_words_bound negative_words).
Qed.

(** ** Missing scores *)

(** The score of a review is missing exactly when its rating is missing and
    its text has more negative than positive lexicon words; every other
    review has a number as score. *)
Theorem score_is_nan_iff :
  forall row : Review.t,
    Annotated.sentiment_score (annotate row) = NaN <->
    Review.rating_numeric row = NaN /\ (pos_count row < neg_count row)%nat.
Proof.
  intros row. rewrite annotate_score.
  destruct (analyze_sentiment_cases row) as [[Hp E] | [[Hp [Hn E]] | [Hp [Hn E]]]];
    rewrite E; unfold positive_rule, negative_rule in *;
    destruct (Review.rating_numeric row) as [|q]; cbn in *.
  - tauto.
  - split; [discriminate | intros [H _]; discriminate].
  - split; [intros _; split; [reflexivity | tauto] | reflexivity].
  - split; [discriminate | intros [H _]; discriminate].
  - split; [discriminate | intros [_ H]; tauto].
  - split; [discriminate | intros [H _]; discriminate].
Qed.

(** ** The annotated frame *)



(** * Further properties of the aggregations *)

(** ** Means *)




Lemma inject_succ (n : nat) :
  inject_Z (Z.of_nat (S n)) == inject_Z (Z.of_nat n) + 1.
Proof. now rewrite Nat2Z.inj_succ, <- Z.add_1_r, inject_Z_plus. Qed.

Lemma inject_nat_nonneg (n : nat) : 0 <= inject_Z (Z.of_nat n).
Proof. unfold Qle; cbn. lia. Qed.

Lemma inject_nat_pos (n : nat) : (0 < n)%nat -> 0 < inject_Z (Z.of_nat n).
Proof. intros H. unfold Qlt; cbn. lia. Qed.



(** ** Satisfaction rate *)

Lemma dropna_map_Num {A : Type} (f : A -> Q) (l : list A) :
  dropna (map (fun x => Num (f x)) l) = map f l.
Proof. induction l as [|x l IH]; cbn; [reflexivity | now rewrite IH]. Qed.

Lemma Qsum_indicator (k : label) (col : list label) :
  Qsum (map (fun l => if label_eqb l k then 1 else 0) col) ==
  inject_Z (Z.of_nat (count_label k col)).
Proof.
  unfold count_label, Qsum.
  induction col as [|l col IH]; cbn [map fold_right filter]; [reflexivity|].
  rewrite IH, (label_eqb_sym k l).
  destruct (label_eqb l k); cbn [List.length].
  - rewrite inject_succ. ring.
  - ring.
Qed.

Lemma count_label_le (k : label) (col : list label) :
  (count_label k col <= List.length col)%nat.
Proof. unfold count_label. apply filter_length_le. Qed.

Lemma positive_pct_value (df : list Annotated.t) :
  df <> [] ->
  exists p : Q,
    positive_pct df = Num p /\
    p == inject_Z (Z.of_nat (count_label Positive (sentiment_column df)))
         / inject_Z (Z.of_nat (List.length df)) * 100.
Proof.
  intros Hne. unfold positive_pct, mean.
  rewrite (dropna_map_Num (fun l => if label_eqb l Positive then 1 else 0)).
  assert (List.length (sentiment_column df) = List.length df) as Hl
    by apply length_map.
  destruct (map _ (sentiment_column df)) as [|x xs] eqn:E.
  - apply (f_equal (@List.length Q)) in E. rewrite length_map, Hl in E.
    destruct df; [contradiction | discriminate].
  - rewrite <- E. cbn [fmul fmap2]. eexists. split; [reflexivity|].
    now rewrite Qsum_indicator, length_map, Hl.
Qed.

(** On a non-empty frame the satisfaction rate is the share of Positive
    rows times 100, a number between 0 and 100, and it is the percentage
    that the sentiment breakdown prints for Positive. *)
Theorem positive_pct_is_positive_share :
  forall df : list Annotated.t,
    df <> [] ->
    exists p : Q,
      positive_pct df = Num p /\
      p == inject_Z (Z.of_nat (count_label Positive (sentiment_column df)))
           / inject_Z (Z.of_nat (List.length df)) * 100 /\
      0 <= p /\ p <= 100 /\
      exists p' : Q,
        breakdown_line df Positive =
          Ok (count_label Positive (sentiment_column df), p') /\
        p == p'.
Proof.
  intros df Hne.
  destruct (positive_pct_value df Hne) as [p [Hp Hv]].
  exists p. split; [exact Hp|]. split; [exact Hv|].
  assert (0 < inject_Z (Z.of_nat (List.length df))) as Hn
    by (apply inject_nat_pos; destruct df; [contradiction | cbn; lia]).
  assert (0 <= inject_Z (Z.of_nat (count_label Positive (sentiment_column df)))) as H0
    by apply inject_nat_nonneg.
  assert (inject_Z (Z.of_nat (count_label Positive (sentiment_column df)))
          <= inject_Z (Z.of_nat (List.length df))) as Hle.
  { rewrite <- Zle_Qle. apply Nat2Z.inj_le.
    rewrite <- (length_map Annotated.sentiment df). apply count_label_le. }
  set (c := inject_Z (Z.of_nat (count_label Positive (sentiment_column df)))) in *.
  set (n := inject_Z (Z.of_nat (List.length df))) in *.
  assert (0 <= c / n) as Hq0 by (apply Qle_shift_div_l; [exact Hn | lra]).
  assert (c / n <= 1) as Hq1 by (apply Qle_shift_div_r; [exact Hn | lra]).
  split; [rewrite Hv; lra|]. split; [rewrite Hv; lra|].
  rewrite (breakdown_line_ok df Positive Hne).
  unfold sentiment_counts. rewrite get_value_counts.
  eexists. split; [reflexivity|]. exact Hv.
Qed.

Lemma positive_pct_is_positive_share_witness :
  exists p : Q, positive_pct sample_frame = Num p /\ p == 50.
Proof.
  destruct (positive_pct_is_positive_share sample_frame) as [p [Hp [Hv _]]];
    [discriminate|].
  exists p. split; [exact Hp|]. rewrite Hv. reflexivity.
Defined.

(** ** Label counts *)

(** The label counts hold one entry per label that occurs, and no other:
    the keys are distinct, an entry [(l, n)] is there exactly when [l]
    occurs [n > 0] times in the column, and the neutral default of [get] is
    used only for a label that does not occur. *)
Theorem value_counts_entries :
  forall (col : list label) (l : label) (n : nat),
    NoDup (map fst (value_counts col)) /\
    (In (l, n) (value_counts col) <->
       n = count_label l col /\ (0 < n)%nat) /\
    (lookup (value_counts col) l = None <-> ~ In l col).
Proof.
  intros col l n.
  assert (NoDup (map fst (value_counts col))) as Hdv.
  { unfold value_counts.
    apply (Permutation_NoDup (l := map fst (count_labels col)));
      [apply Permutation_map, Permutation_sym, sort_desc_perm
      | apply count_labels_NoDup]. }
  destruct (fold_bump_invariant col [] (NoDup_nil _)) as [Hd Hl].
  fold (count_labels col) in Hd, Hl.
  split; [exact Hdv|].
  assert (count_label l col = 0%nat <-> ~ In l col) as Hz.
  { unfold count_label. split.
    - intros H Hin.
      assert (In l (filter (label_eqb l) col)) as Hf
        by (apply filter_In; split; [exact Hin | apply label_eqb_refl]).
      destruct (filter (label_eqb l) col); [contradiction | discriminate].
    - intros H. destruct (filter (label_eqb l) col) as [|x xs] eqn:E; [reflexivity|].
      assert (In x (filter (label_eqb l) col)) as Hf by (rewrite E; now left).
      apply filter_In in Hf as [Hin Hx]. apply label_eqb_eq in Hx. now subst. }
  split.
  - rewrite (lookup_in _ _ _ Hdv), lookup_value_counts, Hl. cbn [lookup get].
    destruct (count_label l col) as [|c] eqn:E.
    + split; [discriminate | intros [-> H]; lia].
    + split; [intros [= <-]; split; [reflexivity | lia] | intros [-> _]; reflexivity].
  - rewrite lookup_value_counts, Hl, <- Hz. cbn [lookup get].
    destruct (count_label l col); split; congruence.
Qed.

(** ** Grouping *)

Section GroupingFacts.
Context {K V : Type}.
Variable cmp : K -> K -> comparison.
Hypothesis cmp_refl : forall k, cmp k k = Eq.
Hypothesis cmp_eq_r : forall a b c, cmp a b = Eq -> cmp c a = cmp c b.
Hypothesis cmp_antisym : forall a b, cmp a b = CompOpp (cmp b a).
Hypothesis cmp_trans : forall a b c, cmp a b = Lt -> cmp b c = Lt -> cmp a c = Lt.

Lemma cmp_gt_lt (a b : K) : cmp a b = Gt -> cmp b a = Lt.
Proof. intros H. rewrite cmp_antisym, H. reflexivity. Qed.

Lemma cmp_eq_sym (a b : K) : cmp a b = Eq -> cmp b a = Eq.
Proof. intros H. rewrite cmp_antisym, H. reflexivity. Qed.

Lemma cmp_eq_l (a b c : K) : cmp a b = Eq -> cmp a c = cmp b c.
Proof.
  intros H. rewrite (cmp_antisym a c), (cmp_antisym b c).
  now rewrite (cmp_eq_r a b c H).
Qed.

Lemma same_key_true (a b : K) : same_key cmp a b = true <-> cmp a b = Eq.
Proof. unfold same_key. destruct (cmp a b); split; congruence. Qed.

Lemma same_key_lt (a b : K) : cmp a b = Lt -> same_key cmp a b = false.
Proof. unfold same_key. now intros ->. Qed.

Lemma same_key_gt (a b : K) : cmp a b = Gt -> same_key cmp a b = false.
Proof. unfold same_key. now intros ->. Qed.

Lemma find_group_above {X : Type} (k : K) (g : list (K * X)) :
  Forall (fun e => cmp k (fst e) = Lt) g -> find_group cmp k g = None.
Proof.
  induction 1 as [|[k' x] g Hk _ IH]; cbn [find_group]; [reflexivity|].
  cbn in Hk. rewrite same_key_gt; [exact IH|].
  rewrite cmp_antisym, Hk. reflexivity.
Qed.

Lemma Forall_above_lower {X : Type} (k k' : K) (g : list (K * X)) :
  cmp k k' = Lt -> Forall (fun e => cmp k' (fst e) = Lt) g ->
  Forall (fun e => cmp k (fst e) = Lt) g.
Proof.
  intros Hk H. eapply Forall_impl; [|exact H].
  intros e He. now apply (cmp_trans k k').
Qed.

Lemma insert_group_above (k0 k : K) (v : V) (g : list (K * list V)) :
  cmp k0 k = Lt -> Forall (fun e => cmp k0 (fst e) = Lt) g ->
  Forall (fun e => cmp k0 (fst e) = Lt) (insert_group cmp k v g).
Proof.
  intros Hk H. induction H as [|[k' vs] g Hk' Hg IH]; cbn [insert_group].
  - now repeat constructor.
  - destruct (cmp k k'); repeat (constructor; try assumption).
Qed.

Lemma insert_group_ascending (k : K) (v : V) (g : list (K * list V)) :
  ascending cmp g -> ascending cmp (insert_group cmp k v g).
Proof.
  unfold ascending.
  induction 1 as [|[k' vs] g Hs IH Hk]; cbn [insert_group].
  - repeat constructor.
  - destruct (cmp k k') eqn:E.
    + constructor; [exact Hs|].
      eapply Forall_impl; [|exact Hk]. intros e He. exact He.
    + constructor; [now constructor|].
      constructor; [exact E | now apply (Forall_above_lower k k')].
    + constructor; [exact IH|].
      apply insert_group_above; [now apply cmp_gt_lt | exact Hk].
Qed.

Lemma find_insert_group (k k' : K) (v : V) (g : list (K * list V)) :
  ascending cmp g ->
  find_group cmp k' (insert_group cmp k v g) =
  if same_key cmp k k'
  then Some (v :: match find_group cmp k g with Some vs => vs | None => [] end)
  else find_group cmp k' g.
Proof.
  unfold ascending.
  induction 1 as [|[k1 vs] g Hs IH Hk]; cbn [insert_group find_group].
  - reflexivity.
  - destruct (cmp k k1) eqn:E; cbn [find_group].
    + rewrite (proj2 (same_key_true k1 k) (cmp_eq_sym _ _ E)).
      assert (same_key cmp k1 k' = same_key cmp k k') as ->
        by (unfold same_key; now rewrite (cmp_eq_l k k1 k' E)).
      now destruct (same_key cmp k k').
    + destruct (same_key cmp k k') eqn:Ek; [|reflexivity].
      rewrite (same_key_gt k1 k) by (rewrite cmp_antisym, E; reflexivity).
      now rewrite (find_group_above k g (Forall_above_lower k k1 g E Hk)).
    + rewrite (same_key_lt k1 k (cmp_gt_lt _ _ E)).
      destruct (same_key cmp k1 k') eqn:E1.
      * apply same_key_true in E1.
        assert (same_key cmp k k' = false) as ->
          by (apply same_key_gt; now rewrite <- (cmp_eq_r k1 k' k E1)).
        reflexivity.
      * exact IH.
Qed.

Lemma groupby_ascending (key : V -> option K) (rows : list V) :
  ascending cmp (groupby cmp key rows).
Proof.
  induction rows as [|r rows IH]; cbn [groupby]; [constructor|].
  destruct (key r); [now apply insert_group_ascending | exact IH].
Qed.

Lemma find_groupby (key : V -> option K) (rows : list V) (k : K) :
  find_group cmp k (groupby cmp key rows) =
  match rows_of cmp key k rows with
  | [] => None
  | vs => Some vs
  end.
Proof.
  unfold rows_of.
  induction rows as [|r rows IH]; cbn [groupby filter]; [reflexivity|].
  destruct (key r) as [kr|]; [|exact IH].
  rewrite find_insert_group by apply groupby_ascending.
  destruct (same_key cmp kr k) eqn:E; [|exact IH].
  apply same_key_true in E.
  assert (find_group cmp kr (groupby cmp key rows) =
          find_group cmp k (groupby cmp key rows)) as ->.
  { clear IH. induction (groupby cmp key rows) as [|[k1 vs] g IHg];
      cbn [find_group]; [reflexivity|].
    assert (same_key cmp k1 kr = same_key cmp k1 k) as ->
      by (unfold same_key; now rewrite (cmp_eq_r kr k k1 E)).
    now rewrite IHg. }
  rewrite IH. now destruct (filter _ rows).
Qed.

Lemma find_group_in {X : Type} (k : K) (x : X) (g : list (K * X)) :
  ascending cmp g -> In (k, x) g -> find_group cmp k g = Some x.
Proof.
  unfold ascending.
  induction 1 as [|[k' x'] g Hs IH Hk]; [contradiction|].
  intros [[= -> ->] | Hin]; cbn [find_group].
  - now rewrite (proj2 (same_key_true k k) (cmp_refl k)).
  - rewrite same_key_lt; [now apply IH|].
    rewrite Forall_forall in Hk. exact (Hk _ Hin).
Qed.

Lemma in_find_group {X : Type} (k : K) (x : X) (g : list (K * X)) :
  find_group cmp k g = Some x -> exists k', cmp k' k = Eq /\ In (k', x) g.
Proof.
  induction g as [|[k' x'] g IH]; cbn [find_group]; [discriminate|].
  destruct (same_key cmp k' k) eqn:E.
  - intros [= ->]. exists k'. split; [now apply same_key_true | now left].
  - intros H. destruct (IH H) as [k0 [H0 Hin]]. exists k0. split; [exact H0 | now right].
Qed.

Lemma in_groupby (key : V -> option K) (rows : list V) (k : K) (vs : list V) :
  In (k, vs) (groupby cmp key rows) ->
  vs = rows_of cmp key k rows /\ vs <> [].
Proof.
  intros H. apply (find_group_in _ _ _ (groupby_ascending key rows)) in H.
  rewrite find_groupby in H.
  destruct (rows_of cmp key k rows) as [|v l]; [discriminate|].
  injection H as <-. split; [reflexivity | discriminate].
Qed.

Lemma groupby_has_group (key : V -> option K) (rows : list V) (k : K) :
  rows_of cmp key k rows <> [] ->
  exists k', cmp k' k = Eq /\ In (k', rows_of cmp key k rows) (groupby cmp key rows).
Proof.
  intros H. apply in_find_group. rewrite find_groupby.
  now destruct (rows_of cmp key k rows).
Qed.

Lemma ascending_map {X Y : Type} (f : K * X -> Y) (g : list (K * X)) :
  ascending cmp g -> ascending cmp (map (fun e => (fst e, f e)) g).
Proof.
  unfold ascending. induction 1 as [|e g Hs IH Hk]; cbn [map]; constructor.
  - exact IH.
  - rewrite Forall_map. exact Hk.
Qed.

Lemma ascending_NoDup {X : Type} (g : list (K * X)) :
  ascending cmp g -> NoDup (map fst g).
Proof.
  unfold ascending. induction 1 as [|e g Hs IH Hk]; cbn [map]; constructor.
  - intros Hin. apply in_map_iff in Hin as [e' [He Hin]].
    rewrite Forall_forall in Hk. specialize (Hk e' Hin).
    rewrite He, cmp_refl in Hk. discriminate.
  - exact IH.
Qed.

Lemma groupby_lengths (key : V -> option K) (rows : list V) :
  fold_right (fun g acc => (List.length (snd g) + acc)%nat) 0%nat
             (groupby cmp key rows) =
  List.length (filter (fun r => match key r with Some _ => true | None => false end)
                      rows).
Proof.
  induction rows as [|r rows IH]; cbn [groupby filter]; [reflexivity|].
  destruct (key r) as [k|]; [|exact IH].
  cbn [List.length]. rewrite <- IH. clear IH.
  induction (groupby cmp key rows) as [|[k' vs] g IHg]; cbn [insert_group fold_right].
  - reflexivity.
  - destruct (cmp k k'); cbn [fold_right snd List.length]; [lia | lia |].
    rewrite IHg. lia.
Qed.
End GroupingFacts.

(** ** The three key orders *)

Lemma Qcompare_refl (q : Q) : (q ?= q) = Eq.
Proof. now apply Qeq_alt. Qed.

Lemma Qcompare_eq_r (a b c : Q) : (a ?= b) = Eq -> (c ?= a) = (c ?= b).
Proof. intros H. apply Qeq_alt in H. now rewrite H. Qed.

Lemma Qcompare_opp (a b : Q) : (a ?= b) = CompOpp (b ?= a).
Proof. symmetry. apply Qcompare_antisym. Qed.

Lemma Qcompare_lt_trans (a b c : Q) :
  (a ?= b) = Lt -> (b ?= c) = Lt -> (a ?= c) = Lt.
Proof. rewrite <- !Qlt_alt. apply Qlt_trans. Qed.

Lemma string_compare_refl (k : string) : String.compare k k = Eq.
Proof. exact (proj2 (OrderedTypeEx.String_as_OT.cmp_eq k k) eq_refl). Qed.

Lemma string_compare_eq (a b : string) : String.compare a b = Eq -> a = b.
Proof. exact (proj1 (OrderedTypeEx.String_as_OT.cmp_eq a b)). Qed.

Lemma string_compare_eq_r (a b c : string) :
  String.compare a b = Eq -> String.compare c a = String.compare c b.
Proof. intros H. now rewrite (string_compare_eq a b H). Qed.

Lemma label_compare_refl (l : label) : label_compare l l = Eq.
Proof. now destruct l. Qed.

Lemma label_compare_eq (a b : label) : label_compare a b = Eq -> a = b.
Proof. destruct a, b; cbn; congruence. Qed.

Lemma label_compare_eq_r (a b c : label) :
  label_compare a b = Eq -> label_compare c a = label_compare c b.
Proof. intros H. now rewrite (label_compare_eq a b H). Qed.

Lemma label_compare_opp (a b : label) :
  label_compare a b = CompOpp (label_compare b a).
Proof. now destruct a, b. Qed.

Lemma label_compare_lt_trans (a b c : label) :
  label_compare a b = Lt -> label_compare b c = Lt -> label_compare a c = Lt.
Proof. destruct a, b, c; cbn; congruence. Qed.

(** ** Cross-tabulations *)

Lemma filter_none {A : Type} (f : A -> bool) (l : list A) :
  (forall x, In x l -> f x = false) -> filter f l = [].
Proof.
  induction l as [|x l IH]; intros H; cbn [filter]; [reflexivity|].
  rewrite (H x (or_introl eq_refl)). apply IH. intros y Hy. apply H. now right.
Qed.

Lemma existsb_label_false (l : label) (all : list label) :
  existsb (label_eqb l) all = false -> ~ In l all.
Proof.
  intros H Hin.
  assert (existsb (label_eqb l) all = true) as Ht
    by (apply existsb_exists; exists l; split; [exact Hin | apply label_eqb_refl]).
  congruence.
Qed.

Lemma count_label_absent (l : label) (col : list label) :
  ~ In l col -> count_label l col = 0%nat.
Proof.
  intros H. unfold count_label. rewrite filter_none; [reflexivity|].
  intros x Hx. destruct (label_eqb l x) eqn:E; [|reflexivity].
  apply label_eqb_eq in E. now subst.
Qed.

Lemma row_total_columns (all col : list label) :
  (forall l, In l col -> In l all) ->
  row_total (map (fun l => (l, count_label l col)) (columns_of all)) =
  List.length col.
Proof.
  intros Hsub.
  assert (forall l, existsb (label_eqb l) all = false -> count_label l col = 0%nat)
    as Hz.
  { intros l Hl. apply count_label_absent. intros Hin.
    exact (existsb_label_false l all Hl (Hsub l Hin)). }
  rewrite <- (count_label_total col). unfold columns_of. cbn [filter].
  destruct (existsb (label_eqb Negative) all) eqn:E1;
    destruct (existsb (label_eqb Neutral) all) eqn:E2;
    destruct (existsb (label_eqb Positive) all) eqn:E3;
    cbn [map row_total fold_right snd];
    try rewrite (Hz _ E1); try rewrite (Hz _ E2); try rewrite (Hz _ E3); lia.
Qed.

Lemma columns_of_spec (all : list label) (l : label) :
  In l (columns_of all) <-> In l all.
Proof.
  unfold columns_of. rewrite filter_In, existsb_exists. split.
  - intros [_ [x [Hx E]]]. apply label_eqb_eq in E. now subst.
  - intros H. split; [destruct l; cbn; tauto|].
    exists l. split; [exact H | apply label_eqb_refl].
Qed.

Section CrosstabFacts.
Context {K : Type}.
Variable cmp : K -> K -> comparison.
Hypothesis cmp_refl : forall k, cmp k k = Eq.
Hypothesis cmp_eq_r : forall a b c, cmp a b = Eq -> cmp c a = cmp c b.
Hypothesis cmp_antisym : forall a b, cmp a b = CompOpp (cmp b a).
Hypothesis cmp_trans : forall a b c, cmp a b = Lt -> cmp b c = Lt -> cmp a c = Lt.
Variable key : Annotated.t -> option K.

Lemma rows_of_keyed (k : K) (df : list Annotated.t) (a : Annotated.t) :
  In a (rows_of cmp key k df) -> In a (filter (has_key key) df).
Proof.
  unfold rows_of, has_key. rewrite !filter_In. intros [Hin Hk].
  split; [exact Hin|]. now destruct (key a).
Qed.

Lemma crosstab_ascending (df : list Annotated.t) :
  ascending cmp (crosstab cmp key df).
Proof.
  unfold crosstab.
  apply (ascending_map cmp
           (fun g => map (fun l => (l, List.length
                                         (filter (label_eqb l) (sentiment_column (snd g)))))
                         (columns_of (sentiment_column (filter (has_key key) df))))).
  now apply groupby_ascending.
Qed.

Lemma crosstab_row (df : list Annotated.t) (k : K) (cells : list (label * nat)) :
  In (k, cells) (crosstab cmp key df) ->
  rows_of cmp key k df <> [] /\
  cells = map (fun l => (l, count_label l (sentiment_column (rows_of cmp key k df))))
              (columns_of (sentiment_column (filter (has_key key) df))) /\
  row_total cells = List.length (rows_of cmp key k df).
Proof.
  unfold crosstab. intros H.
  apply in_map_iff in H as [[k' vs] [[= -> <-] Hin]].
  apply (in_groupby cmp cmp_refl cmp_eq_r cmp_antisym cmp_trans) in Hin
    as [-> Hne].
  split; [exact Hne|]. split; [reflexivity|].
  cbn [snd]. fold (count_label).
  change (fun l : label =>
            (l, List.length (filter (label_eqb l)
                               (sentiment_column (rows_of cmp key k df)))))
    with (fun l : label =>
            (l, count_label l (sentiment_column (rows_of cmp key k df)))).
  rewrite row_total_columns; [apply length_map|].
  intros l Hl. unfold sentiment_column in *.
  apply in_map_iff in Hl as [a [<- Ha]].
  apply in_map. now apply (rows_of_keyed k).
Qed.

Lemma crosstab_grand_total (df : list Annotated.t) :
  fold_right (fun r acc => (row_total (snd r) + acc)%nat) 0%nat
             (crosstab cmp key df) =
  List.length (filter (has_key key) df).
Proof.
  assert (forall r, In r (crosstab cmp key df) ->
                    row_total (snd r) = List.length (rows_of cmp key (fst r) df))
    as Hrow.
  { intros [k cells] Hin. now destruct (crosstab_row df k cells Hin) as [_ [_ H]]. }
  assert (forall g, In g (groupby cmp key df) ->
                    List.length (snd g) = List.length (rows_of cmp key (fst g) df))
    as Hgrp.
  { intros [k vs] Hin.
    apply (in_groupby cmp cmp_refl cmp_eq_r cmp_antisym cmp_trans) in Hin as [-> _].
    reflexivity. }
  transitivity (fold_right (fun g acc => (List.length (snd g) + acc)%nat) 0%nat
                           (groupby cmp key df));
    [|exact (groupby_lengths cmp key df)].
  unfold crosstab in *. revert Hrow Hgrp.
  generalize (columns_of (sentiment_column (filter (has_key key) df))) as cols.
  intros cols.
  induction (groupby cmp key df) as [|g gs IH]; intros Hrow Hgrp;
    cbn [map fold_right]; [reflexivity|].
  rewrite IH.
  - rewrite (Hrow _ (or_introl eq_refl)), (Hgrp g (or_introl eq_refl)). reflexivity.
  - intros r Hr. apply Hrow. now right.
  - intros r Hr. apply Hgrp. now right.
Qed.
End CrosstabFacts.

(** ** Sentiment by star rating *)

Lemma rows_of_rating (q : Q) (df : list Annotated.t) (a : Annotated.t) :
  In a (rows_of Qcompare rating_key q df) <->
  In a df /\ holds (Review.rating_numeric (Annotated.review a)) q.
Proof.
  unfold rows_of, rating_key, same_key. rewrite filter_In.
  destruct (Review.rating_numeric (Annotated.review a)) as [|p]; cbn [holds].
  - split; [intros [_ H]; discriminate | tauto].
  - rewrite Qeq_alt. destruct (p ?= q); split; intros [H1 H2];
      (split; [exact H1|]); congruence.
Qed.

Lemma in_cells (cols : list label) (f : label -> nat) (l : label) (c : nat) :
  In (l, c) (map (fun l => (l, f l)) cols) -> c = f l /\ In l cols.
Proof.
  intros H. apply in_map_iff in H as [l' [[= -> <-] Hin]]. now split.
Qed.

(** The table of sentiment by star rating has one row per rating that
    occurs, in ascending order, rows without rating being left out; the
    cell of rating [q] and label [l] is the number of rows with that rating
    and that label, the cells of a row add up to the number of rows with
    its rating, and all cells together to the number of rows that have a
    rating. *)
Theorem sentiment_rating_table :
  forall (df : list Annotated.t) (q : Q) (cells : list (label * nat))
         (a : Annotated.t),
    ascending Qcompare (sentiment_rating df) /\
    (In a (rows_of Qcompare rating_key q df) <->
       In a df /\ holds (Review.rating_numeric (Annotated.review a)) q) /\
    (In (q, cells) (sentiment_rating df) ->
       rows_of Qcompare rating_key q df <> [] /\
       (forall l c, In (l, c) cells ->
          c = count_label l (sentiment_column (rows_of Qcompare rating_key q df))) /\
       row_total cells = List.length (rows_of Qcompare rating_key q df)) /\
    (rows_of Qcompare rating_key q df <> [] ->
       exists q' cells', q' == q /\ In (q', cells') (sentiment_rating df)) /\
    fold_right (fun r acc => (row_total (snd r) + acc)%nat) 0%nat
               (sentiment_rating df) =
    List.length (filter (has_key rating_key) df).
Proof.
  intros df q cells a. unfold sentiment_rating.
  split; [|split; [|split; [|split]]].
  - apply crosstab_ascending; [apply Qcompare_opp | apply Qcompare_lt_trans].
  - apply rows_of_rating.
  - intros H.
    destruct (crosstab_row Qcompare Qcompare_refl Qcompare_eq_r Qcompare_opp
                Qcompare_lt_trans rating_key df q cells H) as [Hne [Hc Ht]].
    split; [exact Hne|]. split; [|exact Ht].
    intros l c Hin. rewrite Hc in Hin. now apply in_cells in Hin as [-> _].
  - intros Hne.
    destruct (groupby_has_group Qcompare Qcompare_eq_r Qcompare_opp
                Qcompare_lt_trans rating_key df q Hne) as [q' [Hq Hin]].
    exists q'. eexists. split; [now apply Qeq_alt|].
    unfold crosstab. apply in_map_iff. eexists. split; [|exact Hin]. reflexivity.
  - apply crosstab_grand_total;
      [apply Qcompare_refl | apply Qcompare_eq_r | apply Qcompare_opp
      | apply Qcompare_lt_trans].
Qed.

Lemma sentiment_rating_table_witness :
  row_total [(Negative, 0%nat); (Neutral, 0%nat); (Positive, 1%nat)] =
  List.length (rows_of Qcompare rating_key 5 sample_frame).
Proof.
  refine (proj2 (proj2 (proj1 (proj2 (proj2
    (sentiment_rating_table sample_frame 5
       [(Negative, 0%nat); (Neutral, 0%nat); (Positive, 1%nat)]
       (annotate (review_of NaN None))))) _))).
  vm_compute. right. right. right. left. reflexivity.
Defined.

Lemma positive_needs_four_stars (row : Review.t) :
  analyze_sentiment row = Positive -> at_least 4 (Review.rating_numeric row).
Proof.
  intros E.
  destruct (analyze_sentiment_cases row) as [[[H _] _] | [[_ [_ E']] | [_ [_ E']]]];
    [exact H | congruence | congruence].
Qed.

Lemma two_stars_is_negative (row : Review.t) :
  at_most 2 (Review.rating_numeric row) -> analyze_sentiment row = Negative.
Proof.
  intros H.
  destruct (analyze_sentiment_cases row) as [[[Hp _] _] | [[_ [_ E]] | [_ [Hn _]]]].
  - destruct (Review.rating_numeric row) as [|q]; [contradiction|].
    cbn in H, Hp. now destruct (Qle_4_2_absurd q).
  - exact E.
  - contradiction Hn. now left.
Qed.

Lemma sentiment_rating_of_annotated_rows (df : list Review.t) (q : Q)
  (cells : list (label * nat)) (l : label) (c : nat) :
  In (q, cells) (sentiment_rating (map annotate df)) ->
  In (l, c) cells ->
  (q < 4 -> l = Positive -> c = 0%nat) /\
  (q <= 2 -> l <> Negative -> c = 0%nat).
Proof.
  intros Hrow Hcell.
  destruct (crosstab_row Qcompare Qcompare_refl Qcompare_eq_r Qcompare_opp
              Qcompare_lt_trans rating_key _ q cells Hrow) as [_ [Hc _]].
  rewrite Hc in Hcell. apply in_cells in Hcell as [-> _].
  assert (forall a, In a (rows_of Qcompare rating_key q (map annotate df)) ->
            exists row, a = annotate row /\ holds (Review.rating_numeric row) q)
    as Hrows.
  { intros a Ha. apply rows_of_rating in Ha as [Hin Hq].
    apply in_map_iff in Hin as [row [<- _]]. now exists row. }
  split; intros Hq Hl; apply count_label_absent; intros Hin;
    apply in_map_iff in Hin as [a [Hs Ha]];
    destruct (Hrows a Ha) as [row [-> Hr]]; rewrite annotate_sentiment in Hs.
  - subst l. apply positive_needs_four_stars in Hs.
    destruct (Review.rating_numeric row) as [|p]; [contradiction|].
    cbn in Hs, Hr. rewrite Hr in Hs. lra.
  - apply Hl. rewrite <- Hs. apply two_stars_is_negative.
    destruct (Review.rating_numeric row) as [|p]; [contradiction|].
    cbn in Hr |- *. rewrite Hr. exact Hq.
Qed.

(** In the table built from the annotated frame, no row of a rating below 4
    has a Positive review, and every review of a rating of at most 2 is in
    the Negative column: this holds of the table of the frame that
    [load_and_process_data] returns, and of the table of the rows annotated
    one by one. *)
Theorem sentiment_rating_of_annotated_frame :
  forall (df : list Review.t) (adf : list Annotated.t) (q : Q)
         (cells : list (label * nat)) (l : label) (c : nat),
    load_and_process_data df = Ok adf \/ adf = map annotate df ->
    In (q, cells) (sentiment_rating adf) ->
    In (l, c) cells ->
    (q < 4 -> l = Positive -> c = 0%nat) /\
    (q <= 2 -> l <> Negative -> c = 0%nat).
Proof.
  intros df adf q cells l c Hok.
  assert (adf = map annotate df) as ->
    by (destruct Hok as [Hok | Hok];
        [exact (load_and_process_data_ok df adf Hok) | exact Hok]).
  apply sentiment_rating_of_annotated_rows.
Qed.

Lemma sentiment_rating_of_annotated_frame_witness :
  (1 < 4 -> Positive = Positive -> 0%nat = 0%nat) /\
  (1 <= 2 -> Positive <> Negative -> 0%nat = 0%nat).
Proof.
  refine (sentiment_rating_of_annotated_frame sample_reviews
            (map annotate sample_reviews) 1
            [(Negative, 1%nat); (Positive, 0%nat)] Positive 0
            (or_introl eq_refl) _ _).
  - vm_compute. left. reflexivity.
  - right. left. reflexivity.
Defined.

(** ** Review length by sentiment *)

Lemma rows_of_label (l : label) (df : list Annotated.t) :
  rows_of label_compare (fun a => Some (Annotated.sentiment a)) l df =
  labelled l df.
Proof.
  unfold rows_of, labelled. apply filter_ext. intros a.
  unfold same_key. now destruct (Annotated.sentiment a), l.
Qed.

Lemma labelled_nonempty (l : label) (df : list Annotated.t) :
  labelled l df <> [] <-> In l (sentiment_column df).
Proof.
  unfold labelled, sentiment_column. split.
  - intros H. destruct (filter _ df) as [|a r] eqn:E; [contradiction|].
    assert (In a (filter (fun a => label_eqb (Annotated.sentiment a) l) df)) as Hin
      by (rewrite E; now left).
    apply filter_In in Hin as [Hin Hl]. apply label_eqb_eq in Hl.
    apply in_map_iff. now exists a.
  - intros H E. apply in_map_iff in H as [a [Hl Hin]].
    assert (In a (filter (fun a => label_eqb (Annotated.sentiment a) l) df)) as Hf
      by (apply filter_In; split; [exact Hin | now apply label_eqb_eq]).
    rewrite E in Hf. destruct Hf.
Qed.

(** The table of review length by sentiment has one entry per label that
    occurs, in the order Negative, Neutral, Positive, and the entry of a
    label is the mean length of the reviews with that label, the missing
    lengths skipped. *)
Theorem sentiment_length_by_label :
  forall (df : list Annotated.t) (l : label) (m : float64),
    ascending label_compare (sentiment_length df) /\
    (In (l, m) (sentiment_length df) <->
       In l (sentiment_column df) /\
       m = mean (map Annotated.review_length (labelled l df))).
Proof.
  intros df l m. unfold sentiment_length. split.
  - apply (ascending_map label_compare
             (fun g => mean (map Annotated.review_length (snd g)))).
    apply groupby_ascending; [apply label_compare_opp | apply label_compare_lt_trans].
  - rewrite <- labelled_nonempty, <- rows_of_label. split.
    + intros H. apply in_map_iff in H as [[k vs] [[= -> <-] Hin]].
      apply (in_groupby label_compare label_compare_refl label_compare_eq_r
               label_compare_opp label_compare_lt_trans) in Hin as [-> Hne].
      split; [exact Hne | reflexivity].
    + intros [Hne ->].
      destruct (groupby_has_group label_compare label_compare_eq_r
                  label_compare_opp label_compare_lt_trans _ df l Hne)
        as [k [Hk Hin]].
      apply label_compare_eq in Hk. subst k.
      apply in_map_iff. eexists. split; [|exact Hin]. reflexivity.
Qed.

(** ** Top categories *)

Lemma assoc_bump_key (l k : string) (s : list (string * nat)) :
  assoc k (bump_key l s) =
  if String.eqb l k then Some (S (count_of k s)) else assoc k s.
Proof.
  unfold count_of.
  induction s as [|[k' n] s IH]; cbn [bump_key assoc].
  - now destruct (String.eqb l k).
  - destruct (String.eqb_spec k' l) as [-> | Hne]; cbn [assoc].
    + now destruct (String.eqb l k).
    + destruct (String.eqb_spec k' k) as [-> | Hne']; [|exact IH].
      apply not_eq_sym, String.eqb_neq in Hne. now rewrite Hne.
Qed.

Lemma keys_bump_key (l : string) (s : list (string * nat)) :
  NoDup (map fst s) ->
  NoDup (map fst (bump_key l s)) /\
  forall k, In k (map fst (bump_key l s)) <-> k = l \/ In k (map fst s).
Proof.
  induction s as [|[k' n] s IH]; cbn [bump_key map fst]; intros Hd.
  - split; [repeat constructor; intros [] | intros k; cbn; intuition].
  - inversion Hd as [|? ? Hnin Hd']; subst.
    destruct (String.eqb_spec k' l) as [-> | Hne]; cbn [map fst].
    + split; [exact Hd | intros k; cbn; intuition].
    + destruct (IH Hd') as [IH1 IH2]. split.
      * constructor; [|exact IH1]. rewrite IH2. intros [-> | H]; tauto.
      * intros k. cbn [In]. rewrite IH2. intuition.
Qed.

Lemma assoc_iff_in {V : Type} (s : list (string * V)) (k : string) (v : V) :
  NoDup (map fst s) -> (In (k, v) s <-> assoc k s = Some v).
Proof.
  induction s as [|[k' m] s IH]; cbn [map fst assoc In]; intros Hd.
  - split; [intros [] | discriminate].
  - inversion Hd as [|? ? Hnin Hd']; subst.
    destruct (String.eqb_spec k' k) as [-> | Hne].
    + split.
      * intros [[= ->] | H]; [reflexivity|].
        contradiction Hnin. apply in_map_iff. now exists (k, v).
      * intros [= ->]. now left.
    + rewrite <- (IH Hd'). split; [|now right].
      intros [[= -> _] | H]; [congruence | exact H].
Qed.

Lemma count_keys_invariant (col : list (option string)) (acc : list (string * nat)) :
  NoDup (map fst acc) ->
  NoDup (map fst (fold_left (fun s cell => match cell with
                                           | Some k => bump_key k s
                                           | None => s
                                           end) col acc)) /\
  forall k,
    assoc k (fold_left (fun s cell => match cell with
                                      | Some k => bump_key k s
                                      | None => s
                                      end) col acc) =
    match assoc k acc, occurrences k col with
    | None, O => None
    | _, c => Some (count_of k acc + c)%nat
    end.
Proof.
  revert acc; induction col as [|[l|] col IH]; intros acc Hd; cbn [fold_left].
  - split; [exact Hd|]. intros k. unfold occurrences, count_of; cbn.
    destruct (assoc k acc); [f_equal; lia | reflexivity].
  - destruct (IH (bump_key l acc) (proj1 (keys_bump_key l acc Hd))) as [H1 H2].
    split; [exact H1|]. intros k. rewrite H2.
    unfold count_of. rewrite assoc_bump_key.
    unfold occurrences, count_of; cbn [filter].
    destruct (String.eqb l k); cbn [List.length];
      destruct (assoc k acc);
      destruct (List.length (filter _ col));
      try reflexivity; f_equal; lia.
  - destruct (IH acc Hd) as [H1 H2]. split; [exact H1|]. intros k.
    rewrite H2. reflexivity.
Qed.

Lemma count_keys_entries (col : list (option string)) (k : string) (n : nat) :
  NoDup (map fst (count_keys col)) /\
  (In (k, n) (count_keys col) <-> n = occurrences k col /\ (0 < n)%nat).
Proof.
  unfold count_keys.
  destruct (count_keys_invariant col [] (NoDup_nil _)) as [Hd Hl].
  split; [exact Hd|].
  rewrite (assoc_iff_in _ _ _ Hd), Hl. cbn [assoc count_of].
  destruct (occurrences k col) as [|c].
  - split; [discriminate | intros [-> H]; lia].
  - split; [intros [= <-]; split; [reflexivity | lia] | intros [-> _]; reflexivity].
Qed.

Lemma sorted_app_order {A : Type} (R : A -> A -> Prop) (l1 l2 : list A) :
  StronglySorted R (l1 ++ l2) ->
  forall a b, In a l1 -> In b l2 -> R a b.
Proof.
  induction l1 as [|x l1 IH]; cbn [app]; intros Hs a b Ha Hb; [contradiction|].
  inversion Hs as [|? ? Hs' Hall]; subst.
  destruct Ha as [<- | Ha].
  - rewrite Forall_forall in Hall. apply Hall, in_or_app. now right.
  - now apply (IH Hs').
Qed.

Lemma occurrences_category (df : list Annotated.t) (k : string) :
  occurrences k (map top_category df) = category_size df k.
Proof.
  unfold occurrences, category_size, in_category.
  induction df as [|a df IH]; cbn [map filter]; [reflexivity|].
  destruct (top_category a) as [k'|]; [|exact IH].
  destruct (String.eqb k' k); cbn [List.length]; now rewrite IH.
Qed.

Lemma category_size_pos (df : list Annotated.t) (k : string) :
  (0 < category_size df k)%nat <-> has_category df k.
Proof.
  rewrite <- category_scores_nonempty. unfold category_size, category_scores.
  destruct (filter (in_category k) df); cbn; split; intros H;
    try lia; try discriminate; congruence.
Qed.

Lemma value_counts_keys_entries (df : list Annotated.t) (k : string) (n : nat) :
  In (k, n) (value_counts_keys (map top_category df)) <->
  n = category_size df k /\ has_category df k.
Proof.
  unfold value_counts_keys.
  assert (In (k, n) (sort_desc (count_keys (map top_category df))) <->
          In (k, n) (count_keys (map top_category df))) as ->.
  { split; apply Permutation_in;
      [apply sort_desc_perm | apply Permutation_sym, sort_desc_perm]. }
  rewrite (proj2 (count_keys_entries _ k n)), occurrences_category.
  rewrite <- category_size_pos. split; intros [-> H]; (split; [reflexivity | exact H]).
Qed.

Lemma value_counts_keys_NoDup (df : list Annotated.t) :
  NoDup (map fst (value_counts_keys (map top_category df))).
Proof.
  unfold value_counts_keys.
  apply (Permutation_NoDup (l := map fst (count_keys (map top_category df)))).
  - apply Permutation_map, Permutation_sym, sort_desc_perm.
  - exact (proj1 (count_keys_entries _ "" 0%nat)).
Qed.

(** The top categories are at most five distinct categories of the frame;
    none of the categories left out has more rows than one that is kept;
    and when the frame has at most five categories, all of them are kept. *)
Theorem top_categories_are_most_frequent :
  forall (df : list Annotated.t) (k k' : string),
    (List.length (top_categories df) <= 5)%nat /\
    NoDup (top_categories df) /\
    (In k (top_categories df) -> has_category df k) /\
    (In k (top_categories df) -> has_category df k' ->
       ~ In k' (top_categories df) ->
       (category_size df k' <= category_size df k)%nat) /\
    ((categories_covered df <= 5)%nat -> has_category df k ->
       In k (top_categories df)).
Proof.
  intros df k k'. unfold top_categories.
  set (vc := value_counts_keys (map top_category df)).
  assert (NoDup (map fst vc)) as Hnd by apply value_counts_keys_NoDup.
  assert (forall x, In x (firstn 5 vc) -> In x vc) as Hsub.
  { intros x Hx. rewrite <- (firstn_skipn 5 vc). apply in_or_app. now left. }
  split; [rewrite length_map; apply firstn_le_length|].
  split.
  { rewrite <- firstn_map. rewrite <- (firstn_skipn 5 (map fst vc)) in Hnd.
    now apply NoDup_app_remove_r in Hnd. }
  split.
  { intros H. apply in_map_iff in H as [[k0 n] [Hk Hin]]. cbn in Hk. subst k0.
    apply Hsub in Hin. now apply value_counts_keys_entries in Hin as [_ H]. }
  split.
  { intros Hk Hk' Hout.
    apply in_map_iff in Hk as [[k0 n] [E Hin]]. cbn in E. subst k0.
    assert (In (k', category_size df k') vc) as Hin'
      by (apply value_counts_keys_entries; now split).
    assert (In (k', category_size df k') (skipn 5 vc)) as Hskip.
    { rewrite <- (firstn_skipn 5 vc) in Hin'. apply in_app_or in Hin' as [H | H];
        [|exact H].
      contradiction Hout. apply in_map_iff. now exists (k', category_size df k'). }
    assert (StronglySorted (fun a b => (snd b <= snd a)%nat)
              (firstn 5 vc ++ skipn 5 vc)) as Hs
      by (rewrite firstn_skipn; apply sort_desc_sorted).
    assert (n = category_size df k) as ->
      by (apply Hsub in Hin; now apply value_counts_keys_entries in Hin as [-> _]).
    exact (sorted_app_order _ _ _ Hs _ _ Hin Hskip). }
  intros Hc Hk.
  assert (List.length vc = categories_covered df) as Hlen.
  { unfold categories_covered, nunique.
    rewrite <- (length_map fst vc).
    apply Permutation_length, NoDup_Permutation;
      [exact Hnd | apply NoDup_nodup|].
    intros x. rewrite nodup_In. split.
    - intros H. apply in_map_iff in H as [[x0 n] [E Hin]]. cbn in E. subst x0.
      apply value_counts_keys_entries in Hin as [_ [a [Ha Hx]]].
      clear -Ha Hx. induction df as [|b df IH]; [contradiction|].
      cbn [map present]. destruct Ha as [-> | Ha].
      + rewrite Hx. now left.
      + destruct (top_category b); [right|]; now apply IH.
    - intros H.
      assert (has_category df x) as Hx.
      { clear -H. induction df as [|b df IH]; [contradiction|].
        cbn [map present] in H. destruct (top_category b) as [kb|] eqn:E.
        - destruct H as [<- | H].
          + exists b. split; [now left | exact E].
          + destruct (IH H) as [a [Ha Hk]]. exists a. split; [now right | exact Hk].
        - destruct (IH H) as [a [Ha Hk]]. exists a. split; [now right | exact Hk]. }
      apply in_map_iff. exists (x, category_size df x). split; [reflexivity|].
      apply value_counts_keys_entries. now split. }
  rewrite firstn_all2 by lia.
  apply in_map_iff. exists (k, category_size df k). split; [reflexivity|].
  apply value_counts_keys_entries. now split.
Qed.

Lemma top_categories_are_most_frequent_witness :
  has_category sample_frame "A" /\ In "C" (top_categories sample_frame).
Proof.
  destruct (top_categories_are_most_frequent sample_frame "A" "C")
    as [_ [_ [H1 _]]].
  destruct (top_categories_are_most_frequent sample_frame "C" "A")
    as [_ [_ [H2 [_ H3]]]].
  split.
  - apply H1. vm_compute. left. reflexivity.
  - apply H3; [vm_compute; lia | apply H2; vm_compute; tauto].
Defined.

(** ** Sentiment by top categories *)

Lemma same_key_string (a b : string) :
  same_key String.compare a b = String.eqb a b.
Proof.
  unfold same_key. destruct (String.eqb_spec a b) as [-> | Hne].
  - now rewrite string_compare_refl.
  - destruct (String.compare a b) eqn:E; try reflexivity.
    now apply string_compare_eq in E.
Qed.

Lemma rows_of_category (k : string) (df : list Annotated.t) :
  rows_of String.compare top_category k df = filter (in_category k) df.
Proof.
  unfold rows_of, in_category. apply filter_ext. intros a.
  destruct (top_category a); [apply same_key_string | reflexivity].
Qed.

Lemma in_category_isin (top : list string) (k : string) (a : Annotated.t) :
  in_category k a = true -> (isin top a = true <-> In k top).
Proof.
  unfold in_category, isin. destruct (top_category a) as [k'|]; [|discriminate].
  intros H. apply String.eqb_eq in H. subst k'.
  rewrite existsb_exists. split.
  - intros [x [Hx E]]. apply String.eqb_eq in E. now subst.
  - intros H. exists k. split; [exact H | apply String.eqb_refl].
Qed.

Lemma filter_category_kept (top : list string) (k : string) (df : list Annotated.t) :
  In k top ->
  filter (in_category k) (filter (isin top) df) = filter (in_category k) df.
Proof.
  intros Hk. induction df as [|a df IH]; cbn [filter]; [reflexivity|].
  destruct (in_category k a) eqn:E.
  - rewrite (proj2 (in_category_isin top k a E) Hk). cbn [filter].
    now rewrite E, IH.
  - destruct (isin top a); cbn [filter]; [rewrite E|]; exact IH.
Qed.

Lemma normalize_row_values (cells : list (label * nat)) :
  row_total cells <> 0%nat ->
  normalize_row cells =
  map (fun c => (fst c,
                 Num (inject_Z (Z.of_nat (snd c))
                      / inject_Z (Z.of_nat (row_total cells)) * 100))) cells.
Proof.
  intros H. unfold normalize_row.
  destruct (Nat.eqb_spec (row_total cells) 0); [contradiction | reflexivity].
Qed.

Lemma Qsum_shares (d : Q) (cells : list (label * nat)) :
  ~ d == 0 ->
  Qsum (map (fun c => inject_Z (Z.of_nat (snd c)) / d * 100) cells) ==
  inject_Z (Z.of_nat (row_total cells)) / d * 100.
Proof.
  intros Hd. unfold Qsum, row_total.
  induction cells as [|c cells IH]; cbn [map fold_right].
  - now field.
  - rewrite IH, Nat2Z.inj_add, inject_Z_plus. now field.
Qed.

(** The table of sentiment by top categories has at most five rows, each of
    a top category; the cell of category [k] and label [l] is the share of
    the rows of [k] labelled [l], times 100, so that no cell is missing and
    the cells of a row add up to 100. *)
Theorem cat_sentiment_pct_rows :
  forall (df : list Annotated.t) (k : string) (cells : list (label * float64)),
    (List.length (cat_sentiment_pct df) <= 5)%nat /\
    (In (k, cells) (cat_sentiment_pct df) ->
       In k (top_categories df) /\
       (0 < category_size df k)%nat /\
       (forall l x, In (l, x) cells ->
          x = Num (inject_Z (Z.of_nat
                     (count_label l (sentiment_column (filter (in_category k) df))))
                   / inject_Z (Z.of_nat (category_size df k)) * 100)) /\
       exists qs, map snd cells = map Num qs /\ Qsum qs == 100).
Proof.
  intros df k cells. unfold cat_sentiment_pct.
  set (tab := crosstab String.compare top_category (cat_sentiment df)).
  assert (ascending String.compare tab) as Hasc
    by (apply crosstab_ascending; [apply String.compare_antisym | apply compare_lt_trans]).
  assert (forall k0 cs, In (k0, cs) tab ->
            In k0 (top_categories df) /\
            cs = map (fun l => (l, count_label l
                                     (sentiment_column (filter (in_category k0) df))))
                     (columns_of (sentiment_column
                                    (filter (has_key top_category) (cat_sentiment df)))) /\
            row_total cs = category_size df k0 /\
            (0 < category_size df k0)%nat) as Hrow.
  { intros k0 cs Hin.
    destruct (crosstab_row String.compare string_compare_refl string_compare_eq_r
                String.compare_antisym compare_lt_trans top_category _ k0 cs Hin)
      as [Hne [Hc Ht]].
    rewrite rows_of_category in Hne, Hc, Ht.
    assert (In k0 (top_categories df)) as Htop.
    { unfold cat_sentiment in Hne.
      destruct (filter (in_category k0) (filter (isin (top_categories df)) df))
        as [|a r] eqn:E; [contradiction|].
      assert (In a (filter (in_category k0) (filter (isin (top_categories df)) df)))
        as Ha by (rewrite E; now left).
      apply filter_In in Ha as [Ha Hk0]. apply filter_In in Ha as [_ Hi].
      now apply (in_category_isin _ k0 a Hk0). }
    unfold cat_sentiment in Hne, Hc, Ht.
    rewrite (filter_category_kept _ _ _ Htop) in Hne, Hc, Ht.
    split; [exact Htop|]. split; [exact Hc|]. split; [exact Ht|].
    unfold category_size. destruct (filter (in_category k0) df);
      [contradiction | cbn; lia]. }
  split.
  - rewrite length_map, <- (length_map fst tab).
    transitivity (List.length (top_categories df)).
    + apply NoDup_incl_length.
      * apply (ascending_NoDup String.compare string_compare_refl), Hasc.
      * intros x Hx. apply in_map_iff in Hx as [[k0 cs] [E Hin]]. cbn in E. subst k0.
        now apply (Hrow x cs).
    + unfold top_categories. rewrite length_map. apply firstn_le_length.
  - intros H. apply in_map_iff in H as [[k0 cs] [[= -> <-] Hin]].
    destruct (Hrow k cs Hin) as [Htop [Hc [Ht Hpos]]].
    assert (row_total cs <> 0%nat) as Hnz by lia.
    cbn [snd]. rewrite (normalize_row_values cs Hnz), Ht.
    split; [exact Htop|]. split; [exact Hpos|]. split.
    + intros l x Hx. apply in_map_iff in Hx as [[l0 c] [[= -> <-] Hlc]].
      rewrite Hc in Hlc. apply in_cells in Hlc as [-> _]. reflexivity.
    + exists (map (fun c => inject_Z (Z.of_nat (snd c))
                            / inject_Z (Z.of_nat (category_size df k)) * 100) cs).
      split; [now rewrite !map_map|].
      assert (~ inject_Z (Z.of_nat (category_size df k)) == 0) as Hd
        by (unfold Qeq; cbn; lia).
      rewrite (Qsum_shares _ cs Hd), Ht. now field.
Qed.

Lemma cat_sentiment_pct_rows_witness :
  In "A" (top_categories sample_frame) /\ (0 < category_size sample_frame "A")%nat.
Proof.
  destruct (proj2 (cat_sentiment_pct_rows sample_frame "A"
                     [(Negative, Num (100 # 2)); (Neutral, Num (0 # 2));
                      (Positive, Num (100 # 2))])) as [H1 [H2 _]].
  - vm_compute. left. reflexivity.
  - split; assumption.
Defined.

(** ** Order of the extremal categories *)

Section ArgBestFirst.
Variable better : Q -> Q -> bool.
Hypothesis better_chain :
  forall a b c, better a b = true -> better b c = true -> better a c = true.
Hypothesis better_over :
  forall a b c, better a b = true -> better c b = false -> better a c = true.

Lemma arg_best_first (s : list (string * float64)) :
  forall (best : option (string * Q)) (k : string) (q : Q),
    arg_best better s best = Some (k, q) ->
    best = Some (k, q) \/
    exists s1 s2,
      s = (s1 ++ (k, Num q) :: s2)%list /\
      (forall k' q', In (k', Num q') s1 -> better q q' = true) /\
      (forall kb b, best = Some (kb, b) -> better q b = true).
Proof.
  induction s as [|[k1 [|q1]] s IH]; intros best k q H; cbn [arg_best] in H.
  - now left.
  - destruct (IH _ _ _ H) as [Hb | [s1 [s2 [-> [H1 H2]]]]]; [now left | right].
    exists ((k1, NaN) :: s1), s2. split; [reflexivity|]. split; [|exact H2].
    intros k' q' [[=] | Hin]. now apply (H1 k').
  - destruct best as [[kb b]|].
    + destruct (better q1 b) eqn:E.
      * right. destruct (IH _ _ _ H) as [[= -> ->] | [s1 [s2 [-> [H1 H2]]]]].
        -- exists [], s. split; [reflexivity|]. split; [intros k' q' []|].
           now intros kb' b' [= _ <-].
        -- exists ((k1, Num q1) :: s1), s2. split; [reflexivity|]. split.
           ++ intros k' q' [[= _ <-] | Hin]; [now apply (H2 k1) | now apply (H1 k')].
           ++ intros kb' b' [= _ <-].
              apply (better_chain q q1 b); [now apply (H2 k1) | exact E].
      * destruct (IH _ _ _ H) as [Hb | [s1 [s2 [-> [H1 H2]]]]]; [now left | right].
        exists ((k1, Num q1) :: s1), s2. split; [reflexivity|]. split; [|exact H2].
        intros k' q' [[= _ <-] | Hin]; [|now apply (H1 k')].
        apply (better_over q b q1); [now apply (H2 kb) | exact E].
    + right. destruct (IH _ _ _ H) as [[= -> ->] | [s1 [s2 [-> [H1 H2]]]]].
      * exists [], s. split; [reflexivity|]. split; [intros k' q' [] | intros kb b [=]].
      * exists ((k1, Num q1) :: s1), s2. split; [reflexivity|]. split.
        -- intros k' q' [[= _ <-] | Hin]; [now apply (H2 k1) | now apply (H1 k')].
        -- intros kb b [=].
Qed.
End ArgBestFirst.

Lemma sorted_keys_after {V : Type} (s1 s2 : list (string * V)) (k : string) (v : V) :
  sorted_keys (s1 ++ (k, v) :: s2)%list -> keys_above k s2.
Proof.
  induction s1 as [|e s1 IH]; cbn [app]; intros H; inversion H; subst; auto.
Qed.

Lemma first_best_is_first (better : Q -> Q -> bool) (s : list (string * float64))
  (k : string) (q : Q) :
  (forall a b c, better a b = true -> better b c = true -> better a c = true) ->
  (forall a b c, better a b = true -> better c b = false -> better a c = true) ->
  (forall a b, a == b -> better a b = false) ->
  sorted_keys s ->
  arg_best better s None = Some (k, q) ->
  forall k' q', In (k', Num q') s -> q' == q -> String.compare k k' <> Gt.
Proof.
  intros Hc Ho Heq Hs H k' q' Hin Hq.
  destruct (arg_best_first better Hc Ho s None k q H)
    as [[=] | [s1 [s2 [-> [H1 _]]]]].
  apply in_app_or in Hin as [Hin | [[= <- _] | Hin]].
  - specialize (H1 k' q' Hin). rewrite (Heq q q') in H1; [discriminate|].
    now symmetry.
  - now rewrite string_compare_refl.
  - apply sorted_keys_after in Hs. unfold keys_above in Hs.
    rewrite Forall_forall in Hs. specialize (Hs _ Hin). cbn in Hs.
    now rewrite Hs.
Qed.

Lemma above_chain (a b c : Q) :
  Qlt_bool b a = true -> Qlt_bool c b = true -> Qlt_bool c a = true.
Proof. rewrite !Qlt_bool_true. intros H1 H2. now apply (Qlt_trans c b a). Qed.

Lemma above_over (a b c : Q) :
  Qlt_bool b a = true -> Qlt_bool b c = false -> Qlt_bool c a = true.
Proof.
  rewrite !Qlt_bool_true, Qlt_bool_false. intros H1 H2.
  now apply (Qle_lt_trans c b a).
Qed.

Lemma below_chain (a b c : Q) :
  Qlt_bool a b = true -> Qlt_bool b c = true -> Qlt_bool a c = true.
Proof. rewrite !Qlt_bool_true. apply Qlt_trans. Qed.

Lemma below_over (a b c : Q) :
  Qlt_bool a b = true -> Qlt_bool c b = false -> Qlt_bool a c = true.
Proof.
  rewrite !Qlt_bool_true, Qlt_bool_false. intros H1 H2.
  now apply (Qlt_le_trans a b c).
Qed.

Lemma Qlt_bool_eq (a b : Q) : a == b -> Qlt_bool a b = false.
Proof. intros H. apply Qlt_bool_false. rewrite H. apply Qle_refl. Qed.

Lemma idxmax_found (s : list (string * float64)) (k : string) :
  idxmax s = Ok (Some k) ->
  exists q, arg_best (fun q b => Qlt_bool b q) s None = Some (k, q).
Proof.
  unfold idxmax. destruct s as [|e s]; [discriminate|].
  set (l := e :: s). intros H.
  assert (option_map fst (arg_best (fun q b => Qlt_bool b q) l None) = Some k)
    as E by congruence.
  destruct (arg_best (fun q b => Qlt_bool b q) l None) as [[k0 q]|];
    [|discriminate].
  injection E as ->. now exists q.
Qed.

Lemma idxmin_found (s : list (string * float64)) (k : string) :
  idxmin s = Ok (Some k) ->
  exists q, arg_best (fun q b => Qlt_bool q b) s None = Some (k, q).
Proof.
  unfold idxmin. destruct s as [|e s]; [discriminate|].
  set (l := e :: s). intros H.
  assert (option_map fst (arg_best (fun q b => Qlt_bool q b) l None) = Some k)
    as E by congruence.
  destruct (arg_best (fun q b => Qlt_bool q b) l None) as [[k0 q]|];
    [|discriminate].
  injection E as ->. now exists q.
Qed.

(** When both extremal categories are found, the mean score of the most
    critical one is at most that of the most positive one; and among the
    categories that share the highest mean (the lowest mean) the one named
    is the first in the order of the category names. *)
Theorem extremal_categories_order :
  forall (df : list Annotated.t) (hi lo : string),
    extremal_categories df = Ok (Some hi, Some lo) ->
    exists mh ml : Q,
      category_mean df hi = Num mh /\ category_mean df lo = Num ml /\
      ml <= mh /\
      (forall k m, category_mean df k = Num m -> m == mh ->
                   String.compare hi k <> Gt) /\
      (forall k m, category_mean df k = Num m -> m == ml ->
                   String.compare lo k <> Gt).
Proof.
  intros df hi lo H.
  destruct (cat_sentiment_avg df) as [|e s] eqn:E.
  - destruct (extremal_categories_raises df E) as [[_ Hx] | [_ Hx]];
      rewrite Hx in H; discriminate.
  - assert (cat_sentiment_avg df <> []) as Hne by congruence.
    destruct (extremal_categories_cons df Hne) as [hi' [lo' [Hmax [Hmin Hx]]]].
    rewrite Hx in H. injection H as -> ->. clear E e s Hx Hne.
    destruct (idxmax_found _ _ Hmax) as [mh Hbh].
    destruct (idxmin_found _ _ Hmin) as [ml Hbl].
    destruct (arg_best_spec (fun q b => Qlt_bool b q) above_asym above_trans
                _ None hi mh Hbh) as [[[=] | Hinh] [Hallh _]].
    destruct (arg_best_spec (fun q b => Qlt_bool q b) (fun a b => above_asym b a)
                below_trans _ None lo ml Hbl) as [[[=] | Hinl] _].
    exists mh, ml.
    assert (category_mean df hi = Num mh) as Hmh
      by (apply In_cat_sentiment_avg in Hinh as [_ Hm]; now symmetry).
    assert (category_mean df lo = Num ml) as Hml
      by (apply In_cat_sentiment_avg in Hinl as [_ Hm]; now symmetry).
    split; [exact Hmh|]. split; [exact Hml|]. split.
    + apply Qlt_bool_false. exact (Hallh lo ml Hinl).
    + split; intros k m Hk Hm.
      * apply (first_best_is_first (fun q b => Qlt_bool b q) (cat_sentiment_avg df)
                 hi mh above_chain above_over
                 (fun a b Hab => Qlt_bool_eq b a (Qeq_sym _ _ Hab))
                 (cat_sentiment_avg_sorted df) Hbh k m);
          [now apply mean_in_avg | exact Hm].
      * apply (first_best_is_first (fun q b => Qlt_bool q b) (cat_sentiment_avg df)
                 lo ml below_chain below_over Qlt_bool_eq
                 (cat_sentiment_avg_sorted df) Hbl k m);
          [now apply mean_in_avg | exact Hm].
Qed.

Lemma extremal_categories_order_witness :
  exists mh ml : Q,
    category_mean sample_frame "B" = Num mh /\
    category_mean sample_frame "A" = Num ml /\ ml <= mh.
Proof.
  destruct (extremal_categories_order sample_frame "B" "A" eq_refl)
    as [mh [ml [H1 [H2 [H3 _]]]]].
  exists mh, ml. repeat split; assumption.
Defined.

(** ** Review characteristics *)

Lemma present_categories (df : list Annotated.t) (k : string) :
  In k (present (map top_category df)) <-> has_category df k.
Proof.
  unfold has_category.
  induction df as [|b df IH]; cbn [map present].
  - split; [intros [] | intros [a [[] _]]].
  - destruct (top_category b) as [kb|] eqn:E; cbn [In]; rewrite ?IH; split.
    + intros [<- | [a [Ha Hk]]].
      * exists b. split; [now left | exact E].
      * exists a. split; [now right | exact Hk].
    + intros [a [[<- | Ha] Hk]].
      * left. congruence.
      * right. now exists a.
    + intros [a [Ha Hk]]. exists a. split; [now right | exact Hk].
    + intros [a [[<- | Ha] Hk]]; [congruence | now exists a].
Qed.

Lemma present_length (col : list (option string)) :
  (List.length (present col) <= List.length col)%nat.
Proof.
  induction col as [|[x|] col IH]; cbn [present List.length]; lia.
Qed.

Lemma nunique_le (col : list (option string)) :
  (nunique col <= List.length col)%nat.
Proof.
  unfold nunique.
  transitivity (List.length (present col)); [|apply present_length].
  apply NoDup_incl_length; [apply NoDup_nodup|].
  intros x Hx. now apply nodup_In in Hx.
Qed.

Lemma sorted_keys_NoDup {V : Type} (g : list (string * V)) :
  sorted_keys g -> NoDup (map fst g).
Proof.
  induction 1 as [|k v g Hk Hs IH]; cbn [map fst]; constructor; [|exact IH].
  intros Hin. apply in_map_iff in Hin as [[k' v'] [E Hin]]. cbn in E. subst k'.
  unfold keys_above in Hk. rewrite Forall_forall in Hk.
  specialize (Hk _ Hin). cbn in Hk. rewrite string_compare_refl in Hk.
  discriminate.
Qed.

(** Whenever the extremal categories are found, so that the summary goes
    on to its review characteristics, the number of categories covered is
    at least 1, it is the number of categories that the category ranking
    holds a mean for, and neither it nor the number of products analysed
    exceeds the number of rows. *)
Theorem categories_covered_counts_groups :
  forall (df : list Annotated.t) (hi lo : option string),
    extremal_categories df = Ok (hi, lo) ->
    (1 <= categories_covered df)%nat /\
    categories_covered df = List.length (cat_sentiment_avg df) /\
    (categories_covered df <= List.length df)%nat /\
    (products_analyzed df <= List.length df)%nat.
Proof.
  intros df hi lo Hx.
  assert (categories_covered df = List.length (cat_sentiment_avg df)) as Hlen.
  { unfold categories_covered, nunique.
    rewrite <- (length_map fst (cat_sentiment_avg df)).
    apply Permutation_length, NoDup_Permutation.
    - apply NoDup_nodup.
    - apply sorted_keys_NoDup, cat_sentiment_avg_sorted.
    - intros k. rewrite nodup_In, present_categories. split.
      + intros Hk. apply in_map_iff. exists (k, category_mean df k).
        split; [reflexivity|]. now apply In_cat_sentiment_avg.
      + intros Hk. apply in_map_iff in Hk as [[k' m] [E Hin]]. cbn in E. subst k'.
        now apply In_cat_sentiment_avg in Hin as [H _]. }
  split.
  - rewrite Hlen. destruct (cat_sentiment_avg df) as [|e s] eqn:E; [|cbn; lia].
    destruct (extremal_categories_raises df E) as [[_ Hr] | [_ Hr]];
      rewrite Hr in Hx; discriminate.
  - split; [exact Hlen|]. split.
    + unfold categories_covered.
      rewrite <- (length_map top_category df). apply nunique_le.
    + unfold products_analyzed.
      rewrite <- (length_map (fun a => Review.product_id (Annotated.review a)) df).
      apply nunique_le.
Qed.

Lemma categories_covered_counts_groups_witness :
  (1 <= categories_covered sample_frame)%nat /\
  categories_covered sample_frame = List.length (cat_sentiment_avg sample_frame).
Proof.
  destruct (categories_covered_counts_groups sample_frame (Some "B") (Some "A")
              eq_refl) as [H1 [H2 _]].
  split; assumption.
Defined.




(** ** Top-level category *)

Lemma contains_bar (c : ascii) (s : string) :
  contains "|" (String c s) = Ascii.eqb c "|"%char || contains "|" s.
Proof.
  cbn [contains starts_with]. rewrite Ascii.eqb_sym.
  now destruct s; rewrite andb_true_r.
Qed.

(** The top-level category is the part of the category before the first
    bar: it holds no bar, the category starts with it, a category without
    bar is its own top level, and a bar and anything after it are cut
    off. *)
Theorem first_segment_cuts_at_bar :
  forall a b : string,
    contains "|" (first_segment a) = false /\
    (exists rest, a = first_segment a ++ rest) /\
    first_segment (first_segment a) = first_segment a /\
    first_segment (first_segment a ++ "|" ++ b) = first_segment a /\
    (contains "|" a = false <-> first_segment a = a).
Proof.
  intros a b. induction a as [|c a [IH1 [[rest IH2] [IH3 [IH4 IH5]]]]].
  - repeat split; try reflexivity. now exists "".
  - cbn [first_segment]. destruct (Ascii.eqb c "|") eqn:E.
    + split; [reflexivity|]. split; [now exists (String c a)|].
      split; [reflexivity|]. split.
      * cbn. reflexivity.
      * rewrite contains_bar, E. split; discriminate.
    + split; [now rewrite contains_bar, E|].
      split; [exists rest; cbn; now rewrite <- IH2|].
      split; [cbn [first_segment]; now rewrite E, IH3|].
      split; [cbn [first_segment append]; rewrite E; cbn [append] in IH4; now rewrite IH4|].
      rewrite contains_bar, E. cbn [orb]. rewrite IH5.
      split; [now intros -> | now intros [= ->]].
Qed.
